(** * TaskPilot: the command interpretation and task-list pipeline

    A shallow embedding of [src/main.py]: the task model, the in-memory
    task store ([TaskManager]), the keyword interpreter
    ([LLMProcessor.fallback_process]), the language-model interpreter
    ([LLMProcessor.process_command]) and the orchestrator
    ([TaskManager.process_command]).

    Conventions of the embedding.
    - Python [int] is [Z]; a Python [str] is a sequence of code points,
      the type [string] below, whose characters are numbers. White space
      ([str.strip], the class [\s] of [re]) is the set of code points
      Python takes for it, beyond ASCII too.
    - What the program receives from outside is an input of the model: the
      clock ([datetime.datetime.now().isoformat()]), the reply of the HTTP
      call to the language model, the standard JSON parser, [str.lower],
      and the field validation done by pydantic for [int] and [str]
      fields.
    - A Python list that is shared between the store and a result is
      represented by reference ([PStore]), not by a copy of its content. *)

From Stdlib Require Import ZArith NArith List Bool Lia Permutation Sorted.
From Stdlib.Strings Require Import Byte.
From Stdlib Require Import DecimalString.
Import ListNotations.

Set Warnings "-register-all".

(* ================================================================== *)
(** ** Text *)

(** A character is a code point. *)
Definition char := N.

(** A text is a sequence of characters. *)
Inductive string :=
| EmptyString
| String (c : char) (r : string).

Declare Scope str_scope.
Delimit Scope str_scope with str.
Bind Scope str_scope with string.

(** Texts are written between double quotes; the literals of this file
    are ASCII. *)
Fixpoint of_bytes (l : list byte) : option string :=
  match l with
  | [] => Some EmptyString
  | b :: r =>
      if (Byte.to_N b <? 128)%N
      then option_map (String (Byte.to_N b)) (of_bytes r)
      else None
  end.

Fixpoint to_bytes (s : string) : option (list byte) :=
  match s with
  | EmptyString => Some []
  | String c r =>
      if (c <? 128)%N
      then match Byte.of_N c, to_bytes r with
           | Some b, Some l => Some (b :: l)
           | _, _ => None
           end
      else None
  end.

String Notation string of_bytes to_bytes : str_scope.

Local Open Scope list_scope.
Local Open Scope str_scope.

Module Char.

Definition eqb (a b : char) : bool := N.eqb a b.

End Char.

Arguments Char.eqb a b : simpl nomatch.

(** The characters the patterns name. *)
Definition comma : char := 44%N.
Definition backquote : char := 96%N.
Definition lbrace : char := 123%N.
Definition rbrace : char := 125%N.

Module Str.

Fixpoint append (a b : string) : string :=
  match a with
  | EmptyString => b
  | String c r => String c (append r b)
  end.

Fixpoint length (s : string) : nat :=
  match s with
  | EmptyString => O
  | String _ r => S (length r)
  end.

(** [a == b] *)
Fixpoint eqb (a b : string) : bool :=
  match a, b with
  | EmptyString, EmptyString => true
  | String x a', String y b' => Char.eqb x y && eqb a' b'
  | _, _ => false
  end.

(** [hay.startswith(needle)] *)
Fixpoint prefix (needle hay : string) : bool :=
  match needle, hay with
  | EmptyString, _ => true
  | String x n', String y h' => Char.eqb x y && prefix n' h'
  | String _ _, EmptyString => false
  end.

(** A text of the standard library, which prints numbers in ASCII. *)
Fixpoint of_std (s : Strings.String.string) : string :=
  match s with
  | Strings.String.EmptyString => EmptyString
  | Strings.String.String a r => String (Ascii.N_of_ascii a) (of_std r)
  end.

End Str.

Notation "a ++ b" := (Str.append a b) : str_scope.

(* ================================================================== *)
(** ** Python strings *)

Module PyStr.

(** The white space of Python: the characters for which
    [str.isspace()] holds, which are also those of the class [\s] of
    [re] on [str]: TAB to CR, FS to US, the space, NEL, the no-break
    space, the Ogham space, U+2000 to U+200A, the line and the
    paragraph separator, the narrow no-break space, the medium
    mathematical space and the ideographic space. *)
Definition white_space : list char :=
  [9; 10; 11; 12; 13; 28; 29; 30; 31; 32; 133; 160; 5760;
   8192; 8193; 8194; 8195; 8196; 8197; 8198; 8199; 8200; 8201; 8202;
   8232; 8233; 8239; 8287; 12288]%N.

Definition isspace (c : char) : bool := existsb (Char.eqb c) white_space.

Definition is_upper (c : char) : bool := (N.leb 65 c) && (N.leb c 90).

(** An ASCII letter in lower case; any other character as it is. *)
Definition lower_char (c : char) : char :=
  if is_upper c then (c + 32)%N else c.

(** [s.lower()] for a text in ASCII; used to run the pipeline on
    concrete commands. In the pipeline [str.lower] is an input. *)
Fixpoint lower_ascii (s : string) : string :=
  match s with
  | EmptyString => EmptyString
  | String c r => String (lower_char c) (lower_ascii r)
  end.

(** [s.lstrip()] *)
Fixpoint lstrip (s : string) : string :=
  match s with
  | EmptyString => EmptyString
  | String c r => if isspace c then lstrip r else s
  end.

(** [s.rstrip()] *)
Fixpoint rstrip (s : string) : string :=
  match s with
  | EmptyString => EmptyString
  | String c r =>
      match rstrip r with
      | EmptyString => if isspace c then EmptyString else String c EmptyString
      | r' => String c r'
      end
  end.

(** [s.strip()] *)
Definition strip (s : string) : string := rstrip (lstrip s).

(** [needle in hay] *)
Fixpoint contains (needle hay : string) : bool :=
  Str.prefix needle hay ||
  match hay with
  | EmptyString => false
  | String _ r => contains needle r
  end.

(** [s.split(",")] *)
Fixpoint split_comma (s : string) : list string :=
  match s with
  | EmptyString => [EmptyString]
  | String c r =>
      if Char.eqb c comma then EmptyString :: split_comma r
      else match split_comma r with
           | h :: t => String c h :: t
           | [] => [String c EmptyString]
           end
  end.

(** Truth value of a string: [bool(s)]. *)
Definition truthy (s : string) : bool :=
  match s with EmptyString => false | _ => true end.

(** A literal of ASCII letters at the head of [s], compared without
    regard to case as under [re.IGNORECASE]; the rest of the subject is
    returned. (No character beyond ASCII matches one of the letters of
    "add" and "create" under that flag.) *)
Fixpoint match_literal_nocase (lit s : string) : option string :=
  match lit, s with
  | EmptyString, _ => Some s
  | String a lit', String b s' =>
      if Char.eqb (lower_char a) (lower_char b)
      then match_literal_nocase lit' s' else None
  | String _ _, EmptyString => None
  end.

(** A literal compared exactly. *)
Fixpoint match_literal (lit s : string) : option string :=
  match lit, s with
  | EmptyString, _ => Some s
  | String a lit', String b s' =>
      if Char.eqb a b then match_literal lit' s' else None
  | String _ _, EmptyString => None
  end.

End PyStr.

Arguments PyStr.isspace c : simpl nomatch.

(* ================================================================== *)
(** ** The two extraction patterns of [LLMProcessor.process_command]

    The patterns are matched the way a backtracking matcher does it: a
    greedy star first tries to take one more character, a lazy star first
    tries to stop; [re.search] tries every start position from the left. *)

Module Extract.
Import PyStr.

Definition fence : string := "```".
Definition fence_json : string := "```json".

(** [\s*```] at the head of [s]. *)
Fixpoint ws_then_fence (s : string) : bool :=
  match match s with
        | String c r => if isspace c then ws_then_fence r else false
        | EmptyString => false
        end
  with
  | true => true
  | false => match match_literal fence s with Some _ => true | None => false end
  end.

(** [([\s\S]*?)\s*```] at the head of [s]: the text of group 1. *)
Fixpoint lazy_group (s : string) : option string :=
  if ws_then_fence s then Some EmptyString
  else match s with
       | EmptyString => None
       | String c r => option_map (String c) (lazy_group r)
       end.

(** [\s*([\s\S]*?)\s*```] at the head of [s]: the greedy [\s*] gives
    characters back when the rest does not match. *)
Fixpoint ws_then_group (s : string) : option string :=
  match s with
  | String c r =>
      if isspace c
      then match ws_then_group r with
           | Some g => Some g
           | None => lazy_group s
           end
      else lazy_group s
  | EmptyString => lazy_group s
  end.

(** [re.search(r'```json\s*([\s\S]*?)\s*```', s)], group 1. *)
Fixpoint search_fenced (s : string) : option string :=
  match match match_literal fence_json s with
        | Some rest => ws_then_group rest
        | None => None
        end
  with
  | Some g => Some g
  | None => match s with
            | EmptyString => None
            | String _ r => search_fenced r
            end
  end.

(** [[\s\S]*\}] at the head of [s]: the matched text. *)
Fixpoint any_then_close (s : string) : option string :=
  match s with
  | EmptyString => None
  | String c r =>
      match any_then_close r with
      | Some m => Some (String c m)
      | None => if Char.eqb c rbrace then Some (String c EmptyString) else None
      end
  end.

(** [re.search(r'(\{[\s\S]*\})', s)], group 1. *)
Fixpoint search_braces (s : string) : option string :=
  match s with
  | EmptyString => None
  | String c r =>
      match (if Char.eqb c lbrace
             then option_map (String c) (any_then_close r) else None)
      with
      | Some m => Some m
      | None => search_braces r
      end
  end.

(** The [json_str] of the source, or [None] where it returns
    "Failed to parse LLM response". *)
Definition extract_json (llm_response : string) : option string :=
  match search_fenced llm_response with
  | Some json_str => Some json_str
  | None => search_braces llm_response
  end.

End Extract.

(* ================================================================== *)
(** ** The task model *)

Inductive Priority := LOW | MEDIUM | HIGH | URGENT.

Inductive TaskStatus := TODO | IN_PROGRESS | DONE.

(** The [.value] of the enumeration members. *)
Definition Priority_value (p : Priority) : string :=
  match p with
  | LOW => "low" | MEDIUM => "medium" | HIGH => "high" | URGENT => "urgent"
  end.

Definition TaskStatus_value (s : TaskStatus) : string :=
  match s with
  | TODO => "todo" | IN_PROGRESS => "in_progress" | DONE => "done"
  end.

(** The [.name] of the enumeration members. *)
Definition Priority_name (p : Priority) : string :=
  match p with
  | LOW => "LOW" | MEDIUM => "MEDIUM" | HIGH => "HIGH" | URGENT => "URGENT"
  end.

Definition TaskStatus_name (s : TaskStatus) : string :=
  match s with
  | TODO => "TODO" | IN_PROGRESS => "IN_PROGRESS" | DONE => "DONE"
  end.

(** The members in definition order, as iterating the class yields them. *)
Definition all_Priority : list Priority := [LOW; MEDIUM; HIGH; URGENT].
Definition all_TaskStatus : list TaskStatus := [TODO; IN_PROGRESS; DONE].

Definition Priority_eqb (p q : Priority) : bool :=
  match p, q with
  | LOW, LOW | MEDIUM, MEDIUM | HIGH, HIGH | URGENT, URGENT => true
  | _, _ => false
  end.

Record Task := mkTask {
  id : option Z;
  title : string;
  description : option string;
  priority : Priority;
  due_date : option string;
  status : TaskStatus;
  tags : list string;
  created_at : option string
}.

Definition set_id (t : Task) (i : Z) : Task :=
  mkTask (Some i) (title t) (description t) (priority t) (due_date t)
         (status t) (tags t) (created_at t).

Definition set_created_at (t : Task) (c : option string) : Task :=
  mkTask (id t) (title t) (description t) (priority t) (due_date t)
         (status t) (tags t) c.

(** [task.id == task_id] *)
Definition id_is (task_id : Z) (t : Task) : bool :=
  match id t with
  | Some i => Z.eqb i task_id
  | None => false
  end.

(* ================================================================== *)
(** ** JSON values, as [json.loads] builds them *)

Inductive json :=
| JNull
| JBool (b : bool)
| JInt (z : Z)
| JFloat (repr : string)
| JStr (s : string)
| JList (l : list json)
| JDict (d : list (string * json)).

(** The name of the Python type of a value. *)
Definition type_name (j : json) : string :=
  match j with
  | JNull => "NoneType" | JBool _ => "bool" | JInt _ => "int"
  | JFloat _ => "float" | JStr _ => "str" | JList _ => "list"
  | JDict _ => "dict"
  end.

(** What a key of a fragment holds while it is being normalized: the JSON
    value it arrived with, or the enumeration member written over it. *)
Inductive fval :=
| FJson (j : json)
| FPriority (p : Priority)
| FStatus (s : TaskStatus).

(** Dictionaries keep insertion order; a key is bound once. *)
Fixpoint dict_get {V : Type} (k : string) (d : list (string * V)) : option V :=
  match d with
  | [] => None
  | (k', v) :: r => if Str.eqb k' k then Some v else dict_get k r
  end.

(** [d[k] = v] *)
Fixpoint dict_set {V : Type} (k : string) (v : V) (d : list (string * V))
  : list (string * V) :=
  match d with
  | [] => [(k, v)]
  | (k', v') :: r =>
      if Str.eqb k' k then (k', v) :: r else (k', v') :: dict_set k v r
  end.

(** [k in d] *)
Definition dict_has {V : Type} (k : string) (d : list (string * V)) : bool :=
  match dict_get k d with Some _ => true | None => false end.

(** [d.get(k, default)] *)
Definition dict_get_default {V : Type} (k : string) (default : V)
  (d : list (string * V)) : V :=
  match dict_get k d with Some v => v | None => default end.

(** The outcome of the JSON parser on a text. *)
Inductive loads_result :=
| Loaded (j : json)
| DecodeError (msg : string)       (* json.JSONDecodeError *)
| LoadsRaised (msg : string).      (* any other exception *)

(** The outcome of the HTTP call to the language model. *)
Inductive http_outcome :=
| PostRaised (msg : string)                  (* network error, timeout *)
| Responded (status_code : Z) (text : string).

(* ================================================================== *)
(** ** Results and responses *)

(** The [tasks] entry of an interpreter result: the very list object the
    interpreter was given (the store's list), a list of tasks built by
    the interpreter, or whatever the model's JSON held. *)
Inductive payload :=
| PStore
| PTasks (l : list Task)
| PJson (j : json).

(** The dictionary an interpreter returns. A failure result has no
    [action] entry. *)
Record result := mkResult {
  r_success : bool;
  r_message : json;
  r_tasks : payload;
  r_action : option json
}.

(** The same result under another [action] entry. *)
Definition with_action (a : option json) (r : result) : result :=
  mkResult (r_success r) (r_message r) (r_tasks r) a.

(** The dictionary [TaskManager.process_command] returns. *)
Record response := mkResponse {
  resp_success : bool;
  resp_message : json;
  resp_tasks : list Task
}.

(** An element met while iterating a payload. *)
Inductive item :=
| ITask (t : Task)
| IJson (j : json).

(* ================================================================== *)
(** ** The task store: [TaskManager] without the interpreters *)

Record TaskManager := mkTaskManager {
  tasks : list Task;
  next_id : Z
}.

(** [TaskManager.__init__] *)
Definition init : TaskManager := mkTaskManager [] 1.

Definition _assign_task_id (task : Task) (tm : TaskManager)
  : Task * TaskManager :=
  match id task with
  | None =>
      (set_id task (next_id tm),
       mkTaskManager (tasks tm) (next_id tm + 1)%Z)
  | Some _ => (task, tm)
  end.

Definition add_task (task : Task) (tm : TaskManager) : Task * TaskManager :=
  let (task', tm') := _assign_task_id task tm in
  (task', mkTaskManager (tasks tm' ++ [task'])%list (next_id tm')).

Definition get_tasks (tm : TaskManager) : list Task := tasks tm.

Fixpoint get_task_in (l : list Task) (task_id : Z) : option Task :=
  match l with
  | [] => None
  | task :: r => if id_is task_id task then Some task else get_task_in r task_id
  end.

Definition get_task (task_id : Z) (tm : TaskManager) : option Task :=
  get_task_in (tasks tm) task_id.

(** Truth value of [task.created_at]: [None] and the empty string are
    false. *)
Definition created_at_set (t : Task) : bool :=
  match created_at t with
  | Some c => PyStr.truthy c
  | None => false
  end.

(** What [update_task] does to [updated_task] when it has found [task]. *)
Definition prepare_update (task_id : Z) (updated_task task : Task) : Task :=
  let u := set_id updated_task task_id in
  if created_at_set u then u else set_created_at u (created_at task).

(** The loop of [update_task]: the updated task and the list with the
    first task of that id overwritten, or [None]. *)
Fixpoint update_task_in (l : list Task) (task_id : Z) (updated_task : Task)
  : option (Task * list Task) :=
  match l with
  | [] => None
  | task :: r =>
      if id_is task_id task then
        let u := prepare_update task_id updated_task task in
        Some (u, u :: r)
      else
        match update_task_in r task_id updated_task with
        | Some (u, r') => Some (u, task :: r')
        | None => None
        end
  end.

Definition update_task (task_id : Z) (updated_task : Task) (tm : TaskManager)
  : option Task * TaskManager :=
  match update_task_in (tasks tm) task_id updated_task with
  | Some (u, l) => (Some u, mkTaskManager l (next_id tm))
  | None => (None, tm)
  end.

Fixpoint delete_task_in (l : list Task) (task_id : Z) : option (list Task) :=
  match l with
  | [] => None
  | task :: r =>
      if id_is task_id task then Some r
      else option_map (cons task) (delete_task_in r task_id)
  end.

Definition delete_task (task_id : Z) (tm : TaskManager) : bool * TaskManager :=
  match delete_task_in (tasks tm) task_id with
  | Some l => (true, mkTaskManager l (next_id tm))
  | None => (false, tm)
  end.

(** The second loop of [update_tasks_from_llm]: tasks without an id take
    one from the counter. *)
Fixpoint assign_ids (new_tasks : list Task) (tm : TaskManager)
  : list Task * TaskManager :=
  match new_tasks with
  | [] => ([], tm)
  | task :: r =>
      let (task', tm') :=
        match id task with
        | None => _assign_task_id task tm
        | Some _ => (task, tm)
        end in
      let (r', tm'') := assign_ids r tm' in
      (task' :: r', tm'')
  end.

(** The end of [update_tasks_from_llm]: ids, then the list is replaced. *)
Definition replace_tasks (new_tasks : list Task) (tm : TaskManager)
  : TaskManager :=
  let (l, tm') := assign_ids new_tasks tm in
  mkTaskManager l (next_id tm').

(* ================================================================== *)
(** ** [sorted(tasks, key=...)] of the keyword interpreter *)

Definition priority_order : list (Priority * nat) :=
  [(URGENT, 0); (HIGH, 1); (MEDIUM, 2); (LOW, 3)]%nat.

(** [priority_order.get(p, 4)] *)
Fixpoint priority_order_get (d : list (Priority * nat)) (p : Priority) : nat :=
  match d with
  | [] => 4%nat
  | (q, n) :: r => if Priority_eqb q p then n else priority_order_get r p
  end.

Definition sort_key (t : Task) : nat :=
  priority_order_get priority_order (priority t).

(** [sorted] is stable: an element goes before the first element whose
    key is not smaller, and elements are inserted from the right. *)
Fixpoint insert_by {A : Type} (key : A -> nat) (x : A) (l : list A) : list A :=
  match l with
  | [] => [x]
  | y :: r => if (key x <=? key y)%nat then x :: y :: r
              else y :: insert_by key x r
  end.

Fixpoint sorted {A : Type} (key : A -> nat) (l : list A) : list A :=
  match l with
  | [] => []
  | x :: r => insert_by key x (sorted key r)
  end.

(* ================================================================== *)
(** ** Field normalization and the interpreters *)

Definition priority_map : list (string * Priority) :=
  [("critical", URGENT); ("urgent", URGENT); ("high", HIGH);
   ("medium", MEDIUM); ("normal", MEDIUM); ("low", LOW)].

Definition status_map : list (string * TaskStatus) :=
  [("to do", TODO); ("todo", TODO); ("in progress", IN_PROGRESS);
   ("in-progress", IN_PROGRESS); ("done", DONE); ("completed", DONE);
   ("finished", DONE)].

(** [v == s] for a string [s]: an enumeration member is a [str] and
    compares by its value. *)
Definition eq_str (v : fval) (s : string) : bool :=
  match v with
  | FJson (JStr x) => Str.eqb x s
  | FJson _ => false
  | FPriority p => Str.eqb (Priority_value p) s
  | FStatus st => Str.eqb (TaskStatus_value st) s
  end.

(** [v in values] *)
Definition in_strs (v : fval) (values : list string) : bool :=
  existsb (eq_str v) values.

(** [Priority(v)] and [TaskStatus(v)]: the member with that value. *)
Definition Priority_of_value (s : string) : option Priority :=
  find (fun p => Str.eqb (Priority_value p) s) all_Priority.

Definition TaskStatus_of_value (s : string) : option TaskStatus :=
  find (fun st => Str.eqb (TaskStatus_value st) s) all_TaskStatus.

(** The string an enumeration field is validated from. *)
Definition enum_key (v : fval) : option string :=
  match v with
  | FJson (JStr x) => Some x
  | FJson _ => None
  | FPriority p => Some (Priority_value p)
  | FStatus st => Some (TaskStatus_value st)
  end.

Definition lift_dict (d : list (string * json)) : list (string * fval) :=
  map (fun kv => (fst kv, FJson (snd kv))) d.

Fixpoint chars (s : string) : list string :=
  match s with
  | EmptyString => []
  | String c r => String c EmptyString :: chars r
  end.

Definition ok_result (msg : string) (p : payload) (act : string) : result :=
  mkResult true (JStr msg) p (Some (JStr act)).

Definition failure_result (msg : string) : result :=
  mkResult false (JStr msg) PStore None.

(** The greedy run of white space of [\s+], after its first character. *)
Fixpoint skip_spaces (s : string) : string :=
  match s with
  | String c r => if PyStr.isspace c then skip_spaces r else s
  | EmptyString => s
  end.

(** The verb, in any case, and [\s+] at the head of [s]: what is left
    of [s]. *)
Definition verb_then_spaces (verb s : string) : option string :=
  match PyStr.match_literal_nocase verb s with
  | Some (String c r) =>
      if PyStr.isspace c then Some (skip_spaces r) else None
  | _ => None
  end.

(** [re.sub(r'^(add|create)\s+', '', command, flags=re.IGNORECASE)] *)
Definition sub_leading_verb (command : string) : string :=
  match verb_then_spaces "add" command with
  | Some rest => rest
  | None => match verb_then_spaces "create" command with
            | Some rest => rest
            | None => command
            end
  end.

(* ================================================================== *)
(** ** The specification's wording, for comparison with the code *)

Module Spec.
Import PyStr.

Definition is_some {A : Type} (o : option A) : bool :=
  match o with Some _ => true | None => false end.

(** The text before the first closing fence. *)
Fixpoint before_fence (s : string) : option string :=
  if is_some (match_literal Extract.fence s) then Some EmptyString
  else match s with
       | EmptyString => None
       | String c r => option_map (String c) (before_fence r)
       end.

(** The content of a block whose opening fence has just been read:
    what stands before the next fence, without the white space around
    it. *)
Definition block_content (rest : string) : option string :=
  option_map rstrip (before_fence (lstrip rest)).

(** The content of the first fenced block labeled as JSON. *)
Fixpoint first_fenced_block (s : string) : option string :=
  match match match_literal Extract.fence_json s with
        | Some rest => block_content rest
        | None => None
        end
  with
  | Some g => Some g
  | None => match s with
            | EmptyString => None
            | String _ r => first_fenced_block r
            end
  end.

(** [s] after an opening brace, [depth] more braces being open: the
    text up to the brace that closes the first one. *)
Fixpoint close_span (depth : nat) (s : string) : option string :=
  match s with
  | EmptyString => None
  | String c r =>
      if Char.eqb c lbrace then
        option_map (String c) (close_span (S depth) r)
      else if Char.eqb c rbrace then
        match depth with
        | O => Some (String c EmptyString)
        | S d => option_map (String c) (close_span d r)
        end
      else option_map (String c) (close_span depth r)
  end.

(** The first top-level [{...}] span of a text: from the first opening
    brace that is closed to the brace that closes it. *)
Fixpoint first_top_level_span (s : string) : option string :=
  match s with
  | EmptyString => None
  | String c r =>
      match (if Char.eqb c lbrace
             then option_map (String c) (close_span 0 r) else None)
      with
      | Some m => Some m
      | None => first_top_level_span r
      end
  end.

(** [c] occurs in [s]. *)
Fixpoint has_char (c : char) (s : string) : bool :=
  match s with
  | EmptyString => false
  | String x r => Char.eqb x c || has_char c r
  end.

Fixpoint all_space (s : string) : bool :=
  match s with
  | EmptyString => true
  | String c r => isspace c && all_space r
  end.

(** URGENT < HIGH < MEDIUM < LOW *)
Definition priority_rank (p : Priority) : nat :=
  match p with
  | URGENT => 0 | HIGH => 1 | MEDIUM => 2 | LOW => 3
  end.

(** The synonym table of priorities, on a lower-case key. *)
Definition priority_synonym (key : string) : Priority :=
  if Str.eqb key "critical" || Str.eqb key "urgent" then URGENT
  else if Str.eqb key "high" then HIGH
  else if Str.eqb key "medium" || Str.eqb key "normal" then MEDIUM
  else if Str.eqb key "low" then LOW
  else MEDIUM.

(** A priority text: the canonical values pass, the rest goes
    through the table without regard to case, that is, after [lower],
    which stands for [str.lower]. *)
Definition priority_of_text (lower : string -> string) (text : string)
  : Priority :=
  if Str.eqb text "low" then LOW
  else if Str.eqb text "medium" then MEDIUM
  else if Str.eqb text "high" then HIGH
  else if Str.eqb text "urgent" then URGENT
  else priority_synonym (lower text).

(** The synonym table of statuses, on a lower-case key. *)
Definition status_synonym (key : string) : TaskStatus :=
  if Str.eqb key "to do" || Str.eqb key "todo" then TODO
  else if Str.eqb key "in progress" || Str.eqb key "in-progress"
       then IN_PROGRESS
  else if Str.eqb key "done" || Str.eqb key "completed"
          || Str.eqb key "finished" then DONE
  else TODO.

Definition status_of_text (lower : string -> string) (text : string)
  : TaskStatus :=
  if Str.eqb text "todo" then TODO
  else if Str.eqb text "in_progress" then IN_PROGRESS
  else if Str.eqb text "done" then DONE
  else status_synonym (lower text).

End Spec.

(* ================================================================== *)
(** ** Concrete inputs *)

Definition groceries : Task :=
  mkTask (Some 1%Z) "Buy groceries" (Some "Milk, eggs, bread, vegetables")
         MEDIUM None TODO ["personal"; "shopping"]
         (Some "2024-05-01T09:00:00").

Definition untitled (title : string) (p : Priority) : Task :=
  mkTask None title None p None TODO [] None.

Definition numbered (i : Z) (title : string) (p : Priority) : Task :=
  mkTask (Some i) title None p None TODO [] (Some "2024-05-01T09:00:00").

(** A double quote, for JSON texts. *)
Definition dq : string := String 34%N EmptyString.

(** A reply with two spans in braces, the first a JSON object with the
    key [action]. *)
Definition two_spans_reply : string :=
  "Result: {" ++ dq ++ "action" ++ dq ++ ": " ++ dq ++ "LIST" ++ dq
  ++ "} (see {notes})".

Definition first_span_of_reply : string :=
  "{" ++ dq ++ "action" ++ dq ++ ": " ++ dq ++ "LIST" ++ dq ++ "}".

(** The body of an HTTP reply whose [response] text is [{x}], and what
    the parser makes of the two texts: the model answered with a JSON
    object whose [tasks] entry is the number 5. *)
Definition number_reply_table : list (string * json) :=
  [("body", JDict [("response", JStr "{x}")]);
   ("{x}", JDict [("message", JStr "Done"); ("tasks", JInt 5)])].

(** The fragment [{"id": 1, "title": "Buy groceries"}]. *)
Definition groceries_fragment : json :=
  JDict [("id", JInt 1); ("title", JStr "Buy groceries")].

(** Validators that accept exactly the values of the declared type, for
    running the pipeline on concrete inputs. *)
Definition strict_int (j : json) : option Z :=
  match j with JInt z => Some z | _ => None end.

Definition strict_str (j : json) : option string :=
  match j with JStr s => Some s | _ => None end.

Definition no_repr (j : json) : string := "<" ++ type_name j ++ ">".

(** A parser that knows the texts of a table and refuses the rest. *)
Definition loads_table (table : list (string * json)) (text : string)
  : loads_result :=
  match dict_get text table with
  | Some j => Loaded j
  | None => DecodeError "Expecting value"
  end.

(** A clock that shows [T0], [T1], [T2], ... *)
Definition tick_clock (k : nat) : string :=
  "T" ++ Str.of_std (NilZero.string_of_uint (Nat.to_uint k)).

(* ================================================================== *)
(** ** The endpoints over the store *)

(** What an endpoint function does: it returns a value, or raises
    [HTTPException(status_code, detail)]. *)
Inductive endpoint (A : Type) :=
| Returns (a : A)
| HTTPException (status_code : Z) (detail : string).

Arguments Returns {A} a.
Arguments HTTPException {A} status_code detail.

Module API.

(** [GET /tasks] *)
Definition get_all_tasks (tm : TaskManager) : list Task := get_tasks tm.

(** [POST /tasks] *)
Definition create_task (task : Task) (tm : TaskManager)
  : Task * TaskManager :=
  add_task task tm.

(** [GET /tasks/{task_id}] *)
Definition get_task (task_id : Z) (tm : TaskManager) : endpoint Task :=
  match get_task task_id tm with
  | None => HTTPException 404 "Task not found"
  | Some task => Returns task
  end.

(** [PUT /tasks/{task_id}] *)
Definition update_task (task_id : Z) (task : Task) (tm : TaskManager)
  : endpoint Task * TaskManager :=
  match update_task task_id task tm with
  | (None, tm') => (HTTPException 404 "Task not found", tm')
  | (Some updated_task, tm') => (Returns updated_task, tm')
  end.

(** [DELETE /tasks/{task_id}] *)
Definition delete_task (task_id : Z) (tm : TaskManager)
  : endpoint bool * TaskManager :=
  match delete_task task_id tm with
  | (false, tm') => (HTTPException 404 "Task not found", tm')
  | (true, tm') => (Returns true, tm')
  end.

End API.

(** [task.id is not None] *)
Definition has_id (t : Task) : bool :=
  match id t with Some _ => true | None => false end.

(** The ids of [after] at the places where [before] has a task without
    an id. *)
Fixpoint fresh_ids (before after : list Task) : list Z :=
  match before, after with
  | t :: r, t' :: r' =>
      match id t, id t' with
      | None, Some i => i :: fresh_ids r r'
      | _, _ => fresh_ids r r'
      end
  | _, _ => []
  end.

(** [n, n + 1, ..., n + m - 1] *)
Definition count_from (n : Z) (m : nat) : list Z :=
  map (fun i => (n + Z.of_nat i)%Z) (seq 0 m).

(** [",".join(parts)] *)
Fixpoint join_comma (parts : list string) : string :=
  match parts with
  | [] => EmptyString
  | [p] => p
  | p :: r => p ++ "," ++ join_comma r
  end.

(** Payloads that can be iterated and hold no dictionary: a list of
    task objects, a string (its characters), a dictionary (its keys). *)
Definition no_fragments (p : payload) : bool :=
  match p with
  | PStore | PTasks _ => true
  | PJson (JStr _) | PJson (JDict _) => true
  | PJson _ => false
  end.

(** An element of a payload that is not a dictionary. *)
Definition not_a_dict (it : item) : bool :=
  match it with
  | IJson (JDict _) => false
  | _ => true
  end.

Section Pipeline.

(** pydantic's validation of a value for an [int] and for a [str]
    field ([None]: the value is refused). *)
Variable coerce_int : json -> option Z.
Variable coerce_str : json -> option string.

(** [str(v)] of a list or a dictionary. *)
Variable py_repr : json -> string.

(** [s.lower()] *)
Variable str_lower : string -> string.

(** [json.loads]; [response.json()] parses the body with it. *)
Variable json_loads : string -> loads_result.

(** The successive readings of
    [datetime.datetime.now().isoformat()]. *)
Variable clock : nat -> string.

(** [str(v)] *)
Definition py_str (v : fval) : string :=
  match v with
  | FJson JNull => "None"
  | FJson (JBool true) => "True"
  | FJson (JBool false) => "False"
  | FJson (JInt z) => Str.of_std (NilZero.string_of_int (Z.to_int z))
  | FJson (JFloat r) => r
  | FJson (JStr s) => s
  | FJson j => py_repr j
  | FPriority p => "Priority." ++ Priority_name p
  | FStatus st => "TaskStatus." ++ TaskStatus_name st
  end.

Definition coerce_str_f (v : fval) : option string :=
  match v with
  | FJson j => coerce_str j
  | FPriority p => Some (Priority_value p)
  | FStatus st => Some (TaskStatus_value st)
  end.

(** A field declared [Optional[int]], default [None]. *)
Definition optional_int (k : string) (d : list (string * fval))
  : option (option Z) :=
  match dict_get k d with
  | None => Some None
  | Some (FJson JNull) => Some None
  | Some (FJson j) => option_map Some (coerce_int j)
  | Some _ => None
  end.

(** A field declared [Optional[str]], default [None]. *)
Definition optional_str (k : string) (d : list (string * fval))
  : option (option string) :=
  match dict_get k d with
  | None => Some None
  | Some (FJson JNull) => Some None
  | Some v => option_map Some (coerce_str_f v)
  end.

(** A field declared [str], required. *)
Definition required_str (k : string) (d : list (string * fval))
  : option string :=
  match dict_get k d with
  | None => None
  | Some v => coerce_str_f v
  end.

Definition priority_field (d : list (string * fval)) : option Priority :=
  match dict_get "priority" d with
  | None => Some MEDIUM
  | Some v => match enum_key v with
              | Some s => Priority_of_value s
              | None => None
              end
  end.

Definition status_field (d : list (string * fval)) : option TaskStatus :=
  match dict_get "status" d with
  | None => Some TODO
  | Some v => match enum_key v with
              | Some s => TaskStatus_of_value s
              | None => None
              end
  end.

Fixpoint all_str (l : list json) : option (list string) :=
  match l with
  | [] => Some []
  | j :: r => match coerce_str j, all_str r with
              | Some s, Some r' => Some (s :: r')
              | _, _ => None
              end
  end.

(** A field declared [List[str]], default the empty list. *)
Definition tags_field (d : list (string * fval)) : option (list string) :=
  match dict_get "tags" d with
  | None => Some []
  | Some (FJson (JList l)) => all_str l
  | Some _ => None
  end.

(** [BaseModel.__init__] on the keyword arguments [data]: every field
    validated, unknown keys ignored; [None] is a [ValidationError]. *)
Definition validate (data : list (string * fval)) : option Task :=
  match optional_int "id" data, required_str "title" data,
        optional_str "description" data, priority_field data,
        optional_str "due_date" data, status_field data,
        tags_field data, optional_str "created_at" data with
  | Some i, Some t, Some de, Some p, Some du, Some st, Some tg, Some c =>
      Some (mkTask i t de p du st tg c)
  | _, _, _, _, _, _, _, _ => None
  end.

(** [Task.__init__] on the keyword arguments [data] at clock reading
    [k]: the task, or [None] when the construction raises, and the next clock reading. A key [self]
    collides with the first parameter of [__init__]. *)
Definition Task_init (k : nat) (data : list (string * fval))
  : option Task * nat :=
  if dict_has "self" data then (None, k)
  else if dict_has "created_at" data then (validate data, k)
  else (validate (dict_set "created_at" (FJson (JStr (clock k))) data), S k).

(** The three clean-up steps of [update_tasks_from_llm] on one
    dictionary. *)
Definition clean_tags (d : list (string * fval)) : list (string * fval) :=
  match dict_get "tags" d with
  | Some (FJson (JStr s)) =>
      dict_set "tags"
        (FJson (JList (map (fun tag => JStr (PyStr.strip tag))
                           (PyStr.split_comma s)))) d
  | _ => d
  end.

Definition clean_priority (d : list (string * fval)) : list (string * fval) :=
  match dict_get "priority" d with
  | Some v =>
      if negb (in_strs v (map Priority_value all_Priority))
      then dict_set "priority"
             (FPriority (dict_get_default (str_lower (py_str v)) MEDIUM
                                          priority_map)) d
      else d
  | None => d
  end.

Definition clean_status (d : list (string * fval)) : list (string * fval) :=
  match dict_get "status" d with
  | Some v =>
      if negb (in_strs v (map TaskStatus_value all_TaskStatus))
      then dict_set "status"
             (FStatus (dict_get_default (str_lower (py_str v)) TODO
                                        status_map)) d
      else d
  | None => d
  end.

Definition normalize (task_dict : list (string * json))
  : list (string * fval) :=
  clean_status (clean_priority (clean_tags (lift_dict task_dict))).

(** The body of the first loop of [update_tasks_from_llm] for one
    element: only a dictionary has [.get]; anything else raises inside
    the [try] and is skipped. *)
Definition convert_item (k : nat) (it : item) : option Task * nat :=
  match it with
  | IJson (JDict task_dict) => Task_init k (normalize task_dict)
  | IJson _ => (None, k)
  | ITask _ => (None, k)
  end.

Fixpoint convert_items (k : nat) (items : list item) : list Task * nat :=
  match items with
  | [] => ([], k)
  | it :: r =>
      let (ot, k1) := convert_item k it in
      let (ts, k2) := convert_items k1 r in
      (match ot with Some t => t :: ts | None => ts end, k2)
  end.

(** [for task_dict in llm_tasks]: the elements, or the [TypeError]
    message when the payload cannot be iterated. *)
Definition iterate (p : payload) (store_tasks : list Task)
  : string + list item :=
  match p with
  | PStore => inr (map ITask store_tasks)
  | PTasks l => inr (map ITask l)
  | PJson (JList l) => inr (map IJson l)
  | PJson (JStr s) => inr (map (fun c => IJson (JStr c)) (chars s))
  | PJson (JDict d) => inr (map (fun kv => IJson (JStr (fst kv))) d)
  | PJson j => inl ("'" ++ type_name j ++ "' object is not iterable")
  end.

(** [TaskManager.update_tasks_from_llm]: the new store and the next
    clock reading, or the message of the exception that escapes. *)
Definition update_tasks_from_llm (k : nat) (llm_tasks : payload)
  (tm : TaskManager) : string + (TaskManager * nat) :=
  match iterate llm_tasks (tasks tm) with
  | inl e => inl e
  | inr items =>
      let (new_tasks, k') := convert_items k items in
      inr (replace_tasks new_tasks tm, k')
  end.

(** [LLMProcessor.fallback_process]: the result, the content of the
    caller's list when it returns, and the next clock reading. *)
Definition fallback_process (k : nat) (command : string)
  (tasks : list Task) : result * list Task * nat :=
  let command := PyStr.strip (str_lower command) in
  let default := (ok_result "Showing all tasks" PStore "LIST", tasks, k) in
  if PyStr.contains "add" command || PyStr.contains "create" command then
    let title := PyStr.strip (sub_leading_verb command) in
    if PyStr.truthy title then
      let new_task :=
        mkTask (Some (Z.of_nat (List.length tasks) + 1)%Z) title None
               MEDIUM None TODO [] (Some (clock k)) in
      (ok_result ("Added task: " ++ title) PStore "ADD",
       (tasks ++ [new_task])%list, S k)
    else default
  else if PyStr.contains "list" command then
    (ok_result "Here are your tasks" PStore "LIST", tasks, k)
  else if PyStr.contains "prioritize" command
          || PyStr.contains "sort" command then
    (ok_result "Tasks sorted by priority" (PTasks (sorted sort_key tasks))
               "PRIORITIZE", tasks, k)
  else default.

(** The part of [LLMProcessor.process_command] after a reply with
    status 200, on the text of the model. *)
Definition interpret_response (llm_response : string) : result :=
  match Extract.extract_json llm_response with
  | None => failure_result "Failed to parse LLM response"
  | Some json_str =>
      match json_loads json_str with
      | Loaded (JDict parsed_response) =>
          mkResult true
            (dict_get_default "message" (JStr "Command processed")
                              parsed_response)
            (match dict_get "tasks" parsed_response with
             | Some j => PJson j
             | None => PStore
             end)
            (Some (dict_get_default "action" (JStr "LIST") parsed_response))
      | Loaded j =>
          failure_result ("Error processing command: '" ++ type_name j
                          ++ "' object has no attribute 'get'")
      | DecodeError _ =>
          failure_result "Failed to parse JSON from LLM response"
      | LoadsRaised e => failure_result ("Error processing command: " ++ e)
      end
  end.

(** [LLMProcessor.process_command], given what the HTTP call did. *)
Definition llm_process_command (http : http_outcome) : result :=
  match http with
  | PostRaised e => failure_result ("Error processing command: " ++ e)
  | Responded status_code text =>
      if negb (Z.eqb status_code 200)
      then failure_result ("LLM API error: " ++ text)
      else
        match json_loads text with
        | Loaded (JDict body) =>
            match dict_get_default "response" (JStr "") body with
            | JStr llm_response => interpret_response llm_response
            | j =>
                failure_result
                  ("Error processing command: "
                   ++ "expected string or bytes-like object, got '"
                   ++ type_name j ++ "'")
            end
        | Loaded j =>
            failure_result ("Error processing command: '" ++ type_name j
                            ++ "' object has no attribute 'get'")
        | DecodeError e | LoadsRaised e =>
            failure_result ("Error processing command: " ++ e)
        end
  end.

(** [TaskManager.process_command] from the point where the language
    model interpreter has returned [result]. *)
Definition process_result (result : result) (k : nat) (command : string)
  (tm : TaskManager) : response * TaskManager * nat :=
  let '(result, tm, k) :=
    if negb (r_success result) then
      let '(fb, l, k') := fallback_process k command (tasks tm) in
      (fb, mkTaskManager l (next_id tm), k')
    else (result, tm, k) in
  if r_success result then
    match update_tasks_from_llm k (r_tasks result) tm with
    | inr (tm', k') =>
        (mkResponse (r_success result) (r_message result) (tasks tm'),
         tm', k')
    | inl e =>
        (mkResponse false (JStr ("Error processing command: " ++ e))
                    (tasks tm), tm, k)
    end
  else
    (mkResponse (r_success result) (r_message result) (tasks tm), tm, k).

(** [TaskManager.process_command] *)
Definition process_command (http : http_outcome) (k : nat)
  (command : string) (tm : TaskManager) : response * TaskManager * nat :=
  process_result (llm_process_command http) k command tm.

(** *** Sequences of store operations *)

Inductive op :=
| OpAdd (task : Task)
| OpDelete (task_id : Z)
| OpUpdate (task_id : Z) (updated_task : Task)
| OpReplace (llm_tasks : payload).

(** One operation: the id the store assigned when it was an [add] of a
    task that came without one, the new store, the next clock
    reading. An exception of [update_tasks_from_llm] leaves the store
    as it was. *)
Definition step (k : nat) (o : op) (tm : TaskManager)
  : list Z * TaskManager * nat :=
  match o with
  | OpAdd task =>
      let (task', tm') := add_task task tm in
      (match id task, id task' with
       | None, Some i => [i]
       | _, _ => []
       end, tm', k)
  | OpDelete task_id => ([], snd (delete_task task_id tm), k)
  | OpUpdate task_id t => ([], snd (update_task task_id t tm), k)
  | OpReplace llm_tasks =>
      match update_tasks_from_llm k llm_tasks tm with
      | inr (tm', k') => ([], tm', k')
      | inl _ => ([], tm, k)
      end
  end.

Fixpoint run (k : nat) (ops : list op) (tm : TaskManager)
  : list Z * TaskManager * nat :=
  match ops with
  | [] => ([], tm, k)
  | o :: r =>
      let '(ids1, tm1, k1) := step k o tm in
      let '(ids2, tm2, k2) := run k1 r tm1 in
      ((ids1 ++ ids2)%list, tm2, k2)
  end.

Definition store_ids (tm : TaskManager) : list (option Z) :=
  map id (tasks tm).

(** The content of the list a payload refers to, for payloads that
    are lists of tasks. *)
Definition payload_tasks (p : payload) (caller_list : list Task)
  : option (list Task) :=
  match p with
  | PStore => Some caller_list
  | PTasks l => Some l
  | PJson _ => None
  end.

Definition assigned (r : list Z * TaskManager * nat) : list Z :=
  fst (fst r).

Definition store_after (r : list Z * TaskManager * nat) : TaskManager :=
  snd (fst r).

(** Order of two elements by their sort keys. *)
Definition key_le {A : Type} (key : A -> nat) (a b : A) : Prop :=
  (key a <= key b)%nat.

(** *** Statements that are compared with the code below *)

(** A replacement keeps the [created_at] of a task it commits again
    under the same id. *)
Definition replacement_keeps_created_at (k : nat) (llm_tasks : payload)
  (tm : TaskManager) : Prop :=
  forall (tm' : TaskManager) (k' : nat) (old new : Task) (i : Z),
    update_tasks_from_llm k llm_tasks tm = inr (tm', k') ->
    In old (tasks tm) -> In new (tasks tm') ->
    id old = Some i -> id new = Some i ->
    created_at new = created_at old.

(** After the store has been emptied by a replacement, no [add] of a
    task without an id returns an id that a task of the store had. *)
Definition retired_ids_never_reused : Prop :=
  forall (k : nat) (ops1 ops2 : list op) (task : Task) (i : Z),
    let r1 := run k ops1 init in
    let r2 := run (snd r1) (OpReplace (PJson (JList [])) :: ops2)
                  (store_after r1) in
    id task = None ->
    In (Some i) (store_ids (store_after r1)) ->
    id (fst (add_task task (store_after r2))) <> Some i.

(** The keyword interpreter leaves the caller's list as it was. *)
Definition fallback_leaves_caller_list (k : nat) (command : string)
  (tasks : list Task) : Prop :=
  snd (fst (fallback_process k command tasks)) = tasks.

(** [l] is [tasks] put in the order of the priorities, tasks of equal
    priority in their former order. *)
Definition stably_prioritized (tasks l : list Task) : Prop :=
  Permutation tasks l
  /\ StronglySorted
       (fun a b => (Spec.priority_rank (priority a)
                    <= Spec.priority_rank (priority b))%nat) l
  /\ forall p : Priority,
      filter (fun t => Priority_eqb (priority t) p) l
      = filter (fun t => Priority_eqb (priority t) p) tasks.

(** On a command that contains "prioritize" or "sort" the keyword
    interpreter returns the tasks in the order of their priorities. *)
Definition prioritize_sorts (k : nat) (command : string)
  (tasks : list Task) : Prop :=
  PyStr.contains "prioritize" command || PyStr.contains "sort" command
  = true ->
  exists l : list Task,
    payload_tasks (r_tasks (fst (fst (fallback_process k command tasks))))
                  (snd (fst (fallback_process k command tasks))) = Some l
    /\ stably_prioritized tasks l.

(** Without a fenced block, the first top-level span in braces is
    what is extracted. *)
Definition takes_first_top_level_span (text : string) : Prop :=
  Extract.search_fenced text = None ->
  Extract.extract_json text = Spec.first_top_level_span text.

(** What the specification's tables give for a JSON value under the key
    [priority] or [status]: a text is looked up as it is written, any
    other value through the text [str] gives for it. *)
Definition expected_priority (v : json) : Priority :=
  match v with
  | JStr s => Spec.priority_of_text str_lower s
  | _ => Spec.priority_synonym (str_lower (py_str (FJson v)))
  end.

Definition expected_status (v : json) : TaskStatus :=
  match v with
  | JStr s => Spec.status_of_text str_lower s
  | _ => Spec.status_synonym (str_lower (py_str (FJson v)))
  end.

(** The response and the store of an orchestrator run. *)
Definition response_of (x : response * TaskManager * nat) : response :=
  fst (fst x).

Definition store_of (x : response * TaskManager * nat) : TaskManager :=
  snd (fst x).

(* ================================================================ *)
(** ** Characters and texts *)

Lemma char_eqb_spec (a b : char) : reflect (a = b) (Char.eqb a b).
Proof. apply N.eqb_spec. Qed.

Lemma char_eqb_refl (a : char) : Char.eqb a a = true.
Proof. apply N.eqb_refl. Qed.

Lemma char_eqb_sym (a b : char) : Char.eqb a b = Char.eqb b a.
Proof. apply N.eqb_sym. Qed.

Lemma str_eqb_spec (a b : string) : reflect (a = b) (Str.eqb a b).
Proof.
  revert b. induction a as [|x a IH]; intros [|y b]; simpl;
    try (constructor; congruence).
  destruct (char_eqb_spec x y) as [->|Hne]; simpl.
  - destruct (IH b) as [->|Hne]; constructor; congruence.
  - constructor. congruence.
Qed.

Lemma str_eqb_refl (a : string) : Str.eqb a a = true.
Proof. now destruct (str_eqb_spec a a). Qed.

Lemma str_eqb_sym (a b : string) : Str.eqb a b = Str.eqb b a.
Proof.
  destruct (str_eqb_spec a b) as [->|Hne].
  - now rewrite str_eqb_refl.
  - destruct (str_eqb_spec b a); congruence.
Qed.

(* ================================================================ *)
(** ** Facts about the task store *)

Lemma id_is_true (task_id : Z) (t : Task) :
  id_is task_id t = true <-> id t = Some task_id.
Proof.
  unfold id_is. destruct (id t) as [i|]; split; intro H; try discriminate.
  - apply Z.eqb_eq in H. now subst.
  - injection H as ->. apply Z.eqb_refl.
Qed.

Lemma id_is_false (task_id : Z) (t : Task) :
  id_is task_id t = false <-> id t <> Some task_id.
Proof.
  rewrite <- id_is_true. destruct (id_is task_id t); split; congruence.
Qed.

Lemma update_task_in_found (task_id : Z) (t old : Task) (l2 : list Task) :
  forall l1 : list Task,
    (forall x, In x l1 -> id x <> Some task_id) ->
    id old = Some task_id ->
    update_task_in (l1 ++ old :: l2)%list task_id t =
      Some (prepare_update task_id t old,
            (l1 ++ prepare_update task_id t old :: l2)%list).
Proof.
  induction l1 as [|x l1 IH]; intros Hl1 Hold; simpl.
  - apply id_is_true in Hold. now rewrite Hold.
  - assert (Hx : id_is task_id x = false)
      by (apply id_is_false, Hl1; now left).
    rewrite Hx, IH; auto. intros y Hy. apply Hl1. now right.
Qed.

Lemma update_task_in_missing (task_id : Z) (t : Task) :
  forall l : list Task,
    (forall x, In x l -> id x <> Some task_id) ->
    update_task_in l task_id t = None.
Proof.
  induction l as [|x l IH]; intros Hl; simpl; [reflexivity|].
  assert (Hx : id_is task_id x = false)
    by (apply id_is_false, Hl; now left).
  rewrite Hx, IH; auto. intros y Hy. apply Hl. now right.
Qed.

Lemma prepare_update_id (task_id : Z) (t old : Task) :
  id (prepare_update task_id t old) = Some task_id.
Proof. unfold prepare_update. now destruct (created_at_set _). Qed.

Lemma prepare_update_created_at (task_id : Z) (t old : Task) :
  created_at_set t = false ->
  created_at (prepare_update task_id t old) = created_at old.
Proof.
  intros H. unfold prepare_update.
  replace (created_at_set (set_id t task_id)) with false; reflexivity.
Qed.

(** C5. [update_task(task_id, t)] with [t.created_at] unset, where the
    store holds a task of that id ([old] is the first one): the call
    returns a task whose id is [task_id] and whose [created_at] is the
    one of [old], and this task stands where [old] stood. Where no
    stored task has that id, the call returns [None] and the store is
    as before. *)
Theorem update_task_keeps_id_and_created_at
  (tm : TaskManager) (task_id : Z) (t : Task) :
  (forall (l1 : list Task) (old : Task) (l2 : list Task),
      tasks tm = (l1 ++ old :: l2)%list ->
      (forall x, In x l1 -> id x <> Some task_id) ->
      id old = Some task_id ->
      created_at t = None ->
      exists u : Task,
        update_task task_id t tm
        = (Some u, mkTaskManager (l1 ++ u :: l2)%list (next_id tm))
        /\ id u = Some task_id
        /\ created_at u = created_at old)
  /\ ((forall x, In x (tasks tm) -> id x <> Some task_id) ->
      update_task task_id t tm = (None, tm)).
Proof.
  split.
  - intros l1 old l2 Htm Hl1 Hold Hunset.
    exists (prepare_update task_id t old). unfold update_task.
    rewrite Htm, update_task_in_found by assumption.
    repeat split.
    + apply prepare_update_id.
    + apply prepare_update_created_at. unfold created_at_set.
      now rewrite Hunset.
  - intros Hnone. unfold update_task.
    now rewrite update_task_in_missing.
Qed.

(* ================================================================ *)
(** ** The id counter *)

Lemma assign_task_id_next (task : Task) (tm : TaskManager) :
  (next_id tm <= next_id (snd (_assign_task_id task tm)))%Z.
Proof. unfold _assign_task_id. destruct (id task); simpl; lia. Qed.

Lemma add_task_next (task : Task) (tm : TaskManager) :
  (next_id tm <= next_id (snd (add_task task tm)))%Z.
Proof.
  unfold add_task. pose proof (assign_task_id_next task tm) as H.
  destruct (_assign_task_id task tm) as [t' tm']. exact H.
Qed.

Lemma add_task_fresh (task : Task) (tm : TaskManager) :
  id task = None ->
  id (fst (add_task task tm)) = Some (next_id tm)
  /\ next_id (snd (add_task task tm)) = (next_id tm + 1)%Z.
Proof.
  intros H. unfold add_task, _assign_task_id. rewrite H. simpl. auto.
Qed.

Lemma delete_task_next (task_id : Z) (tm : TaskManager) :
  next_id (snd (delete_task task_id tm)) = next_id tm.
Proof.
  unfold delete_task. now destruct (delete_task_in (tasks tm) task_id).
Qed.

Lemma update_task_next (task_id : Z) (t : Task) (tm : TaskManager) :
  next_id (snd (update_task task_id t tm)) = next_id tm.
Proof.
  unfold update_task.
  now destruct (update_task_in (tasks tm) task_id t) as [[u l]|].
Qed.

Lemma assign_ids_next (new_tasks : list Task) :
  forall tm : TaskManager,
    (next_id tm <= next_id (snd (assign_ids new_tasks tm)))%Z.
Proof.
  induction new_tasks as [|task r IH]; intros tm; simpl; [lia|].
  destruct (id task) eqn:Hid.
  - specialize (IH tm). destruct (assign_ids r tm) as [r' tm'']. exact IH.
  - pose proof (assign_task_id_next task tm) as H1.
    destruct (_assign_task_id task tm) as [t' tm'].
    specialize (IH tm'). destruct (assign_ids r tm') as [r' tm''].
    simpl in *. lia.
Qed.

Lemma replace_tasks_next (new_tasks : list Task) (tm : TaskManager) :
  (next_id tm <= next_id (replace_tasks new_tasks tm))%Z.
Proof.
  unfold replace_tasks. pose proof (assign_ids_next new_tasks tm) as H.
  destruct (assign_ids new_tasks tm) as [l tm']. exact H.
Qed.

Lemma update_tasks_from_llm_next (k : nat) (p : payload)
  (tm tm' : TaskManager) (k' : nat) :
  update_tasks_from_llm k p tm = inr (tm', k') ->
  (next_id tm <= next_id tm')%Z.
Proof.
  unfold update_tasks_from_llm.
  destruct (iterate p (tasks tm)); [discriminate|].
  destruct (convert_items k l) as [new_tasks k1]. intros H.
  injection H as <- _. apply replace_tasks_next.
Qed.

(** What one operation hands out lies between the counter before and
    the counter after. *)
Lemma step_bounds (k : nat) (o : op) (tm : TaskManager) :
  (next_id tm <= next_id (store_after (step k o tm)))%Z
  /\ (assigned (step k o tm) = []
      \/ assigned (step k o tm) = [next_id tm]
         /\ (next_id tm < next_id (store_after (step k o tm)))%Z).
Proof.
  unfold assigned, store_after. destruct o as [task|task_id|task_id t|p]; simpl.
  - pose proof (add_task_next task tm) as Hn.
    pose proof (add_task_fresh task tm) as Hf.
    destruct (add_task task tm) as [task' tm']. simpl in *.
    split; [exact Hn|]. destruct (id task).
    + now left.
    + destruct Hf as [-> ->]; [reflexivity|]. right. split; [reflexivity|lia].
  - rewrite delete_task_next. split; [lia|now left].
  - rewrite update_task_next. split; [lia|now left].
  - destruct (update_tasks_from_llm k p tm) as [e|[tm' k']] eqn:E; simpl.
    + split; [lia|now left].
    + split; [eapply update_tasks_from_llm_next; eassumption|now left].
Qed.

Lemma run_bounds (ops : list op) :
  forall (k : nat) (tm : TaskManager),
    (next_id tm <= next_id (store_after (run k ops tm)))%Z
    /\ StronglySorted Z.lt (assigned (run k ops tm))
    /\ forall i, In i (assigned (run k ops tm)) ->
                 (next_id tm <= i < next_id (store_after (run k ops tm)))%Z.
Proof.
  induction ops as [|o r IH]; intros k tm; simpl.
  - unfold assigned, store_after; simpl. repeat split; try lia; try constructor.
    all: contradiction.
  - pose proof (step_bounds k o tm) as [Hn Hs].
    destruct (step k o tm) as [[ids1 tm1] k1]. 
    specialize (IH k1 tm1). destruct (run k1 r tm1) as [[ids2 tm2] k2].
    unfold assigned, store_after in *; simpl in *.
    destruct IH as (Hn2 & Hsorted & Hin).
    destruct Hs as [->|[-> Hlt]]; simpl.
    + repeat split; try lia; try assumption.
      all: apply Hin in H; lia.
    + split; [lia|]. split.
      * constructor; [assumption|]. apply Forall_forall. intros i Hi.
        apply Hin in Hi. lia.
      * intros i [<-|Hi]; [lia|]. apply Hin in Hi. lia.
Qed.

Lemma strictly_sorted_NoDup (l : list Z) :
  StronglySorted Z.lt l -> NoDup l.
Proof.
  induction 1 as [|a l Hs IH Hall]; constructor; [|assumption].
  intros Hin. rewrite Forall_forall in Hall. apply Hall in Hin. lia.
Qed.

(** C4, amended. Whatever [add], [delete], [update] and replacement
    operations are run, from any store: the ids the store assigns in
    [add] to tasks that come without one are strictly increasing in
    the order of assignment, hence pairwise distinct; each lies at or
    above the counter the run started with, so an id below the counter
    is never assigned again; the counter does not decrease. A
    replacement by the empty list leaves no task and keeps the
    counter. *)
Theorem store_assigned_ids_increase
  (k : nat) (ops : list op) (tm : TaskManager) :
  StronglySorted Z.lt (assigned (run k ops tm))
  /\ NoDup (assigned (run k ops tm))
  /\ (forall i : Z, In i (assigned (run k ops tm)) ->
        (next_id tm <= i < next_id (store_after (run k ops tm)))%Z)
  /\ (forall i : Z, (i < next_id tm)%Z -> ~ In i (assigned (run k ops tm)))
  /\ (next_id tm <= next_id (store_after (run k ops tm)))%Z
  /\ update_tasks_from_llm k (PJson (JList [])) tm
     = inr (mkTaskManager [] (next_id tm), k).
Proof.
  destruct (run_bounds ops k tm) as (Hn & Hs & Hin).
  repeat split; try assumption.
  - now apply strictly_sorted_NoDup.
  - now apply Hin.
  - now apply Hin.
  - intros i Hi Hmem. apply Hin in Hmem. lia.
Qed.

(* ================================================================ *)
(** ** Dictionaries and validation *)

Lemma dict_get_set_same {V : Type} (k : string) (v : V) :
  forall d : list (string * V), dict_get k (dict_set k v d) = Some v.
Proof.
  induction d as [|[k' v'] d IH]; simpl.
  - now rewrite str_eqb_refl.
  - destruct (Str.eqb k' k) eqn:E; simpl; rewrite E; auto.
Qed.

Lemma dict_get_set_other {V : Type} (k k' : string) (v : V) :
  k <> k' ->
  forall d : list (string * V), dict_get k (dict_set k' v d) = dict_get k d.
Proof.
  intros Hk. induction d as [|[k0 v0] d IH]; simpl.
  - destruct (str_eqb_spec k' k); congruence.
  - destruct (str_eqb_spec k0 k'); simpl.
    + subst k0. destruct (str_eqb_spec k' k); congruence.
    + destruct (str_eqb_spec k0 k); congruence.
Qed.

Lemma dict_get_lift (k : string) :
  forall d : list (string * json),
    dict_get k (lift_dict d) = option_map FJson (dict_get k d).
Proof.
  induction d as [|[k' v'] d IH]; simpl; [reflexivity|].
  now destruct (Str.eqb k' k).
Qed.

Lemma clean_tags_get (k : string) (d : list (string * fval)) :
  k <> "tags" -> dict_get k (clean_tags d) = dict_get k d.
Proof.
  intros Hk. unfold clean_tags.
  destruct (dict_get "tags" d) as [[[]| |]|]; try reflexivity.
  now apply dict_get_set_other.
Qed.

Lemma clean_priority_get (k : string) (d : list (string * fval)) :
  k <> "priority" -> dict_get k (clean_priority d) = dict_get k d.
Proof.
  intros Hk. unfold clean_priority.
  destruct (dict_get "priority" d) as [v|]; [|reflexivity].
  destruct (negb _); [|reflexivity]. now apply dict_get_set_other.
Qed.

Lemma clean_status_get (k : string) (d : list (string * fval)) :
  k <> "status" -> dict_get k (clean_status d) = dict_get k d.
Proof.
  intros Hk. unfold clean_status.
  destruct (dict_get "status" d) as [v|]; [|reflexivity].
  destruct (negb _); [|reflexivity]. now apply dict_get_set_other.
Qed.

(** Normalization touches the keys [tags], [priority] and [status]
    only. *)
Lemma normalize_get (k : string) (d : list (string * json)) :
  k <> "tags" -> k <> "priority" -> k <> "status" ->
  dict_get k (normalize d) = option_map FJson (dict_get k d).
Proof.
  intros Ht Hp Hs. unfold normalize.
  rewrite clean_status_get, clean_priority_get, clean_tags_get by assumption.
  apply dict_get_lift.
Qed.

Lemma validate_fields (data : list (string * fval)) (t : Task) :
  validate data = Some t ->
  optional_int "id" data = Some (id t)
  /\ required_str "title" data = Some (title t)
  /\ optional_str "description" data = Some (description t)
  /\ priority_field data = Some (priority t)
  /\ optional_str "due_date" data = Some (due_date t)
  /\ status_field data = Some (status t)
  /\ tags_field data = Some (tags t)
  /\ optional_str "created_at" data = Some (created_at t).
Proof.
  unfold validate.
  destruct (optional_int "id" data), (required_str "title" data),
    (optional_str "description" data), (priority_field data),
    (optional_str "due_date" data), (status_field data),
    (tags_field data), (optional_str "created_at" data);
    try discriminate.
  intros H. injection H as <-. simpl. repeat split.
Qed.

Lemma optional_str_ext (k : string) (d d' : list (string * fval)) :
  dict_get k d = dict_get k d' -> optional_str k d = optional_str k d'.
Proof. unfold optional_str. now intros ->. Qed.

(** The [created_at] of a task built from a fragment: the entry the
    fragment carries, validated, or else the clock. *)
Lemma Task_init_created_at (k k' : nat) (d : list (string * json)) (t : Task) :
  (forall s, coerce_str (JStr s) = Some s) ->
  Task_init k (normalize d) = (Some t, k') ->
  match dict_get "created_at" d with
  | Some _ =>
      optional_str "created_at" (lift_dict d) = Some (created_at t) /\ k' = k
  | None => created_at t = Some (clock k) /\ k' = S k
  end.
Proof.
  intros Hstr. unfold Task_init.
  destruct (dict_has "self" (normalize d)); [discriminate|].
  assert (Hget : dict_get "created_at" (normalize d)
                 = option_map FJson (dict_get "created_at" d))
    by (apply normalize_get; discriminate).
  unfold dict_has. rewrite Hget.
  destruct (dict_get "created_at" d) as [v|] eqn:Ev; simpl.
  - intros H. injection H as Hv <-. split; [|reflexivity].
    apply validate_fields in Hv. destruct Hv as (_&_&_&_&_&_&_&Hc).
    rewrite <- Hc. apply optional_str_ext.
    rewrite Hget, dict_get_lift, Ev. reflexivity.
  - intros H. injection H as Hv <-. split; [|reflexivity].
    apply validate_fields in Hv. destruct Hv as (_&_&_&_&_&_&_&Hc).
    unfold optional_str in Hc. rewrite dict_get_set_same in Hc.
    simpl in Hc. rewrite Hstr in Hc. simpl in Hc. congruence.
Qed.

Lemma Task_init_clock (k k' : nat) (data : list (string * fval))
  (ot : option Task) :
  Task_init k data = (ot, k') -> k <= k' <= S k.
Proof.
  unfold Task_init.
  destruct (dict_has "self" data); [intros H; injection H as _ <-; lia|].
  destruct (dict_has "created_at" data); intros H; injection H as _ <-; lia.
Qed.

Lemma convert_item_clock (k k' : nat) (it : item) (ot : option Task) :
  convert_item k it = (ot, k') -> k <= k' <= S k.
Proof.
  destruct it as [t|j]; simpl.
  - intros H; injection H as _ <-; lia.
  - destruct j; try (intros H; injection H as _ <-; lia).
    apply Task_init_clock.
Qed.

Lemma convert_items_clock (items : list item) :
  forall k : nat, k <= snd (convert_items k items).
Proof.
  induction items as [|it r IH]; intros k; simpl; [lia|].
  destruct (convert_item k it) as [ot k1] eqn:E1.
  apply convert_item_clock in E1. specialize (IH k1).
  destruct (convert_items k1 r) as [ts k2]. simpl in *. lia.
Qed.

(** Every task the first loop keeps was built from a dictionary of the
    payload, at a clock reading of the call. *)
Lemma convert_items_source (items : list item) :
  forall (k : nat) (t : Task),
    In t (fst (convert_items k items)) ->
    exists (d : list (string * json)) (j j' : nat),
      In (IJson (JDict d)) items
      /\ k <= j /\ j' <= snd (convert_items k items)
      /\ Task_init j (normalize d) = (Some t, j').
Proof.
  induction items as [|it r IH]; intros k t; simpl; [contradiction|].
  destruct (convert_item k it) as [ot k1] eqn:E1.
  pose proof (convert_item_clock _ _ _ _ E1) as Hk1.
  pose proof (convert_items_clock r k1) as Hk2.
  specialize (IH k1 t).
  destruct (convert_items k1 r) as [ts k2]. simpl in *.
  intros Hin.
  assert (Hcase : ot = Some t \/ In t ts).
  { destruct ot as [t0|]; [destruct Hin as [->|Hin]|]; auto. }
  destruct Hcase as [->|Hts].
  - destruct it as [t0|j]; simpl in E1; [discriminate|].
    destruct j; try discriminate.
    exists d, k, k1. repeat split; auto; lia.
  - destruct (IH Hts) as (d & j & j' & Hd & Hj & Hj' & Hinit).
    exists d, j, j'. repeat split; auto; lia.
Qed.

(** The second loop changes ids only: what it returns is the task it
    was given, or that task with an id where it had none. *)
Lemma assign_ids_source (new_tasks : list Task) :
  forall (tm : TaskManager) (new : Task),
    In new (fst (assign_ids new_tasks tm)) ->
    exists t : Task,
      In t new_tasks
      /\ (new = t \/ (id t = None /\ exists i : Z, new = set_id t i)).
Proof.
  induction new_tasks as [|task r IH]; intros tm new; simpl; [contradiction|].
  destruct (id task) eqn:Hid.
  - specialize (IH tm new). destruct (assign_ids r tm) as [r' tm''].
    simpl in *. intros [<-|Hin].
    + exists task. auto.
    + destruct (IH Hin) as (t & Ht & Hc). exists t. auto.
  - unfold _assign_task_id. rewrite Hid.
    specialize (IH (mkTaskManager (tasks tm) (next_id tm + 1)) new).
    destruct (assign_ids r _) as [r' tm'']. simpl in *. intros [<-|Hin].
    + exists task. split; [now left|]. right. split; [assumption|].
      now exists (next_id tm).
    + destruct (IH Hin) as (t & Ht & Hc). exists t. auto.
Qed.

(** C3, amended. [created_at] is kept by [update_task] when the new
    task has none: the task it returns carries the [created_at] of the
    stored task it overwrites. A replacement of the whole list does
    not look at the stored tasks: each task it commits is the task
    that [Task.__init__] built from one dictionary of the payload,
    with an id added where it had none, and it carries the
    [created_at] entry of that dictionary (so the original one when
    the dictionary repeats it), or the reading of the clock at its
    construction when the dictionary has no such entry. *)
Theorem created_at_on_update_and_replacement :
  (forall s : string, coerce_str (JStr s) = Some s) ->
  (forall (tm : TaskManager) (task_id : Z) (t : Task)
          (l1 : list Task) (old : Task) (l2 : list Task),
      tasks tm = (l1 ++ old :: l2)%list ->
      (forall x, In x l1 -> id x <> Some task_id) ->
      id old = Some task_id ->
      created_at t = None ->
      exists u : Task,
        update_task task_id t tm
        = (Some u, mkTaskManager (l1 ++ u :: l2)%list (next_id tm))
        /\ created_at u = created_at old)
  /\
  (forall (k : nat) (llm_tasks : payload) (tm tm' : TaskManager) (k' : nat)
          (new : Task),
      update_tasks_from_llm k llm_tasks tm = inr (tm', k') ->
      In new (tasks tm') ->
      exists (items : list item) (d : list (string * json)) (t : Task)
             (j j' : nat),
        iterate llm_tasks (tasks tm) = inr items
        /\ In (IJson (JDict d)) items
        /\ k <= j /\ j' <= k'
        /\ Task_init j (normalize d) = (Some t, j')
        /\ (new = t \/ (id t = None /\ exists i : Z, new = set_id t i))
        /\ match dict_get "created_at" d with
           | Some (JStr s) => created_at new = Some s
           | Some _ =>
               optional_str "created_at" (lift_dict d)
               = Some (created_at new)
           | None => created_at new = Some (clock j)
           end).
Proof.
  intros Hstr. split.
  - intros tm task_id t l1 old l2 Htm Hl1 Hold Hunset.
    exists (prepare_update task_id t old). unfold update_task.
    rewrite Htm, update_task_in_found by assumption. split; [reflexivity|].
    apply prepare_update_created_at. unfold created_at_set.
    now rewrite Hunset.
  - intros k p tm tm' k' new Hupd Hnew.
    unfold update_tasks_from_llm in Hupd.
    destruct (iterate p (tasks tm)) as [e|items] eqn:Hit; [discriminate|].
    pose proof (convert_items_source items k) as Hsrc.
    destruct (convert_items k items) as [new_tasks k1].
    injection Hupd as <- <-. unfold replace_tasks in Hnew.
    pose proof (assign_ids_source new_tasks tm new) as Hkeep.
    destruct (assign_ids new_tasks tm) as [l tm1]. simpl in *.
    destruct (Hkeep Hnew) as (t & Ht & Hnt).
    destruct (Hsrc t Ht) as (d & j & j' & Hd & Hj & Hj' & Hinit).
    exists items, d, t, j, j'.
    split; [reflexivity|]. split; [assumption|].
    split; [assumption|]. split; [assumption|].
    split; [assumption|]. split; [assumption|].
    assert (Hc : created_at new = created_at t).
    { destruct Hnt as [->|(_ & i & ->)]; reflexivity. }
    pose proof (Task_init_created_at _ _ _ _ Hstr Hinit) as Hcr.
    destruct (dict_get "created_at" d) as [v|] eqn:Ev.
    + destruct Hcr as [Hopt _]. rewrite Hc.
      destruct v; try assumption.
      unfold optional_str in Hopt. rewrite dict_get_lift, Ev in Hopt.
      simpl in Hopt. rewrite Hstr in Hopt. simpl in Hopt. congruence.
    + destruct Hcr as [Hclock _]. congruence.
Qed.

(* ================================================================ *)
(** ** Field normalization *)

Lemma priority_map_get (key : string) :
  dict_get_default key MEDIUM priority_map = Spec.priority_synonym key.
Proof.
  unfold dict_get_default, priority_map, Spec.priority_synonym.
  cbn [dict_get]. rewrite !(str_eqb_sym _ key).
  destruct (Str.eqb key "critical"), (Str.eqb key "urgent"),
    (Str.eqb key "high"), (Str.eqb key "medium"),
    (Str.eqb key "normal"), (Str.eqb key "low"); reflexivity.
Qed.

Lemma status_map_get (key : string) :
  dict_get_default key TODO status_map = Spec.status_synonym key.
Proof.
  unfold dict_get_default, status_map, Spec.status_synonym.
  cbn [dict_get]. rewrite !(str_eqb_sym _ key).
  destruct (Str.eqb key "to do"), (Str.eqb key "todo"),
    (Str.eqb key "in progress"), (Str.eqb key "in-progress"),
    (Str.eqb key "done"), (Str.eqb key "completed"),
    (Str.eqb key "finished"); reflexivity.
Qed.

Lemma Priority_of_value_value (p : Priority) :
  Priority_of_value (Priority_value p) = Some p.
Proof. now destruct p. Qed.

Lemma TaskStatus_of_value_value (st : TaskStatus) :
  TaskStatus_of_value (TaskStatus_value st) = Some st.
Proof. now destruct st. Qed.

(** A canonical priority text is validated to its member; this is also
    what the specification's table gives. *)
Lemma canonical_priority (s : string) :
  in_strs (FJson (JStr s)) (map Priority_value all_Priority) = true ->
  Priority_of_value s = Some (Spec.priority_of_text str_lower s).
Proof.
  unfold in_strs, Priority_of_value, Spec.priority_of_text, all_Priority.
  cbn [existsb map find eq_str Priority_value].
  rewrite !(str_eqb_sym _ s).
  destruct (Str.eqb s "low"), (Str.eqb s "medium"),
    (Str.eqb s "high"), (Str.eqb s "urgent");
    simpl; try reflexivity; discriminate.
Qed.

Lemma other_priority (s : string) :
  in_strs (FJson (JStr s)) (map Priority_value all_Priority) = false ->
  Spec.priority_of_text str_lower s = Spec.priority_synonym (str_lower s).
Proof.
  unfold in_strs, Spec.priority_of_text, all_Priority.
  cbn [existsb map eq_str Priority_value].
  destruct (Str.eqb s "low"), (Str.eqb s "medium"),
    (Str.eqb s "high"), (Str.eqb s "urgent");
    simpl; try reflexivity; discriminate.
Qed.

Lemma canonical_status (s : string) :
  in_strs (FJson (JStr s)) (map TaskStatus_value all_TaskStatus) = true ->
  TaskStatus_of_value s = Some (Spec.status_of_text str_lower s).
Proof.
  unfold in_strs, TaskStatus_of_value, Spec.status_of_text, all_TaskStatus.
  cbn [existsb map find eq_str TaskStatus_value].
  rewrite !(str_eqb_sym _ s).
  destruct (Str.eqb s "todo"), (Str.eqb s "in_progress"),
    (Str.eqb s "done"); simpl; try reflexivity; discriminate.
Qed.

Lemma other_status (s : string) :
  in_strs (FJson (JStr s)) (map TaskStatus_value all_TaskStatus) = false ->
  Spec.status_of_text str_lower s = Spec.status_synonym (str_lower s).
Proof.
  unfold in_strs, Spec.status_of_text, all_TaskStatus.
  cbn [existsb map eq_str TaskStatus_value].
  destruct (Str.eqb s "todo"), (Str.eqb s "in_progress"),
    (Str.eqb s "done"); simpl; try reflexivity; discriminate.
Qed.

Lemma in_strs_not_text (v : json) (values : list string) :
  (forall s, v <> JStr s) -> in_strs (FJson v) values = false.
Proof.
  intros Hv. unfold in_strs. induction values as [|x r IH]; simpl; auto.
  rewrite IH. destruct v; try reflexivity. now destruct (Hv s).
Qed.

(** The priority a cleaned dictionary is validated to. *)
Lemma clean_priority_field (d : list (string * fval)) (v : json) :
  dict_get "priority" d = Some (FJson v) ->
  priority_field (clean_priority d) = Some (expected_priority v).
Proof.
  intros Hget. unfold clean_priority, priority_field. rewrite Hget.
  destruct (in_strs (FJson v) (map Priority_value all_Priority)) eqn:Hin;
    simpl.
  - rewrite Hget. destruct v; try (rewrite in_strs_not_text in Hin;
      [discriminate|intros ? ?; discriminate]).
    simpl. now apply canonical_priority.
  - rewrite dict_get_set_same. simpl. rewrite Priority_of_value_value.
    rewrite priority_map_get. f_equal.
    destruct v; try reflexivity. simpl. symmetry. now apply other_priority.
Qed.

Lemma clean_status_field (d : list (string * fval)) (v : json) :
  dict_get "status" d = Some (FJson v) ->
  status_field (clean_status d) = Some (expected_status v).
Proof.
  intros Hget. unfold clean_status, status_field. rewrite Hget.
  destruct (in_strs (FJson v) (map TaskStatus_value all_TaskStatus)) eqn:Hin;
    simpl.
  - rewrite Hget. destruct v; try (rewrite in_strs_not_text in Hin;
      [discriminate|intros ? ?; discriminate]).
    simpl. now apply canonical_status.
  - rewrite dict_get_set_same. simpl. rewrite TaskStatus_of_value_value.
    rewrite status_map_get. f_equal.
    destruct v; try reflexivity. simpl. symmetry. now apply other_status.
Qed.

Lemma normalize_priority_field (d : list (string * json)) (v : json) :
  dict_get "priority" d = Some v ->
  priority_field (normalize d) = Some (expected_priority v).
Proof.
  intros Hget. unfold normalize.
  unfold priority_field at 1. rewrite clean_status_get by discriminate.
  apply clean_priority_field.
  rewrite clean_tags_get by discriminate. rewrite dict_get_lift, Hget.
  reflexivity.
Qed.

Lemma normalize_status_field (d : list (string * json)) (v : json) :
  dict_get "status" d = Some v ->
  status_field (normalize d) = Some (expected_status v).
Proof.
  intros Hget. unfold normalize. apply clean_status_field.
  rewrite clean_priority_get, clean_tags_get by discriminate.
  rewrite dict_get_lift, Hget. reflexivity.
Qed.

(** The enumeration fields of a task built by [Task_init] are those its
    dictionary is validated to. *)
Lemma Task_init_enums (k k' : nat) (data : list (string * fval)) (t : Task) :
  Task_init k data = (Some t, k') ->
  priority_field data = Some (priority t)
  /\ status_field data = Some (status t).
Proof.
  unfold Task_init. destruct (dict_has "self" data); [discriminate|].
  destruct (dict_has "created_at" data); intros H; injection H as Hv _;
    apply validate_fields in Hv;
    destruct Hv as (_ & _ & _ & Hp & _ & Hs & _ & _).
  - auto.
  - unfold priority_field, status_field in *.
    rewrite dict_get_set_other in Hp, Hs by discriminate. auto.
Qed.

(** C9. The priority and the status of a fragment go through the fixed
    tables: a canonical value passes; any other value is looked up in
    lower case in the synonym table, and defaults to MEDIUM, resp. TODO,
    when the table does not have it. This is what the normalized
    dictionary is validated to, and what the task built from the
    fragment carries. *)
Theorem normalization_follows_synonym_tables (d : list (string * json)) :
  (forall v : json, dict_get "priority" d = Some v ->
     priority_field (normalize d) = Some (expected_priority v))
  /\ (forall v : json, dict_get "status" d = Some v ->
        status_field (normalize d) = Some (expected_status v))
  /\ (forall (k k' : nat) (t : Task),
        convert_item k (IJson (JDict d)) = (Some t, k') ->
        (forall v : json, dict_get "priority" d = Some v ->
           priority t = expected_priority v)
        /\ (forall v : json, dict_get "status" d = Some v ->
              status t = expected_status v)).
Proof.
  split; [|split].
  - intros v Hv. now apply normalize_priority_field.
  - intros v Hv. now apply normalize_status_field.
  - intros k k' t Hconv. simpl in Hconv.
    apply Task_init_enums in Hconv. destruct Hconv as [Hp Hs].
    split; intros v Hv.
    + rewrite (normalize_priority_field _ _ Hv) in Hp. congruence.
    + rewrite (normalize_status_field _ _ Hv) in Hs. congruence.
Qed.

(* ================================================================ *)
(** ** The sort of the keyword interpreter *)

Section Sorting.

Context {A : Type} (key : A -> nat).

Lemma insert_by_perm (x : A) (l : list A) :
  Permutation (x :: l) (insert_by key x l).
Proof.
  induction l as [|y r IH]; simpl; [reflexivity|].
  destruct (key x <=? key y)%nat; [reflexivity|].
  rewrite perm_swap. now apply perm_skip.
Qed.

Lemma sorted_perm (l : list A) : Permutation l (sorted key l).
Proof.
  induction l as [|x r IH]; simpl; [constructor|].
  rewrite <- insert_by_perm. now apply perm_skip.
Qed.

Lemma insert_by_sorted (x : A) (l : list A) :
  StronglySorted (key_le key) l ->
  StronglySorted (key_le key) (insert_by key x l).
Proof.
  induction 1 as [|y r Hr IH Hall]; simpl.
  - repeat constructor.
  - destruct (Nat.leb_spec (key x) (key y)) as [Hle|Hgt].
    + constructor; [now constructor|]. constructor; [exact Hle|].
      eapply Forall_impl; [|exact Hall]. unfold key_le. intros; lia.
    + constructor; [exact IH|].
      apply (Permutation_Forall (insert_by_perm x r)).
      constructor; [unfold key_le; lia|exact Hall].
Qed.

Lemma sorted_sorted (l : list A) : StronglySorted (key_le key) (sorted key l).
Proof.
  induction l as [|x r IH]; simpl; [constructor|].
  now apply insert_by_sorted.
Qed.

(** Elements of one key class keep their order: the sort is stable. *)
Lemma insert_by_filter (f : A -> bool) (x : A) (l : list A) :
  (forall a b, f a = true -> f b = true -> key a = key b) ->
  filter f (insert_by key x l) = filter f (x :: l).
Proof.
  intros Hclass. induction l as [|y r IH]; [reflexivity|].
  cbn [insert_by]. destruct (Nat.leb_spec (key x) (key y)) as [Hle|Hgt];
    [reflexivity|].
  cbn [filter] in *. rewrite IH.
  destruct (f x) eqn:Hx, (f y) eqn:Hy; try reflexivity.
  pose proof (Hclass x y Hx Hy). lia.
Qed.

Lemma sorted_filter (f : A -> bool) (l : list A) :
  (forall a b, f a = true -> f b = true -> key a = key b) ->
  filter f (sorted key l) = filter f l.
Proof.
  intros Hclass. induction l as [|x r IH]; [reflexivity|].
  cbn [sorted]. rewrite insert_by_filter by assumption.
  cbn [filter]. now rewrite IH.
Qed.

End Sorting.

Lemma sort_key_rank (t : Task) :
  sort_key t = Spec.priority_rank (priority t).
Proof. unfold sort_key. now destruct (priority t). Qed.

Lemma Priority_eqb_eq (p q : Priority) : Priority_eqb p q = true -> p = q.
Proof. destruct p, q; simpl; congruence. Qed.

Lemma sorted_stably_prioritized (l : list Task) :
  stably_prioritized l (sorted sort_key l).
Proof.
  repeat split.
  - apply sorted_perm.
  - pose proof (sorted_sorted sort_key l) as H.
    eapply StronglySorted_ind with (P := fun l' =>
      StronglySorted (fun a b => (Spec.priority_rank (priority a)
                                  <= Spec.priority_rank (priority b))%nat) l');
      [constructor| |exact H].
    intros a l' _ IH Hall. constructor; [exact IH|].
    eapply Forall_impl; [|exact Hall]. unfold key_le. intros b.
    now rewrite !sort_key_rank.
  - intros p. apply sorted_filter. intros a b Ha Hb.
    apply Priority_eqb_eq in Ha, Hb. rewrite !sort_key_rank. congruence.
Qed.

(** C8, amended. On a command that, in lower case, contains
    "prioritize" or "sort" and none of "add", "create" and "list", the
    keyword interpreter returns a new list: a permutation of the tasks,
    in the order URGENT, HIGH, MEDIUM, LOW, the tasks of one priority in
    their former order; the caller's list is untouched. *)
Theorem fallback_prioritize_sorts
  (k : nat) (command : string) (tasks : list Task) :
  let c := PyStr.strip (str_lower command) in
  PyStr.contains "prioritize" c || PyStr.contains "sort" c = true ->
  PyStr.contains "add" c || PyStr.contains "create" c = false ->
  PyStr.contains "list" c = false ->
  exists l : list Task,
    fallback_process k command tasks
    = (ok_result "Tasks sorted by priority" (PTasks l) "PRIORITIZE", tasks, k)
    /\ stably_prioritized tasks l.
Proof.
  intros c Hsort Hadd Hlist. exists (sorted sort_key tasks). split.
  - unfold fallback_process. fold c. now rewrite Hadd, Hlist, Hsort.
  - apply sorted_stably_prioritized.
Qed.

(* ================================================================ *)
(** ** Strings: stripping and blank text *)

Lemma skip_spaces_lstrip (s : string) : skip_spaces s = PyStr.lstrip s.
Proof.
  induction s as [|c r IH]; simpl; [reflexivity|].
  now destruct (PyStr.isspace c).
Qed.

Lemma all_space_rstrip (s : string) :
  Spec.all_space s = true -> PyStr.rstrip s = "".
Proof.
  induction s as [|c r IH]; simpl; [reflexivity|].
  intros H. apply andb_prop in H. destruct H as [Hc Hr].
  now rewrite (IH Hr), Hc.
Qed.

Lemma rstrip_empty_all_space (s : string) :
  PyStr.rstrip s = "" -> Spec.all_space s = true.
Proof.
  induction s as [|c r IH]; simpl; [reflexivity|].
  destruct (PyStr.rstrip r) as [|c' r'] eqn:E; [|discriminate].
  destruct (PyStr.isspace c); [|discriminate]. intros _. now apply IH.
Qed.

Lemma lstrip_all_space (s : string) :
  Spec.all_space (PyStr.lstrip s) = true -> Spec.all_space s = true.
Proof.
  induction s as [|c r IH]; simpl; [reflexivity|].
  destruct (PyStr.isspace c) eqn:Hc; simpl.
  - exact IH.
  - now rewrite Hc.
Qed.

Lemma strip_empty_all_space (s : string) :
  PyStr.strip s = "" -> Spec.all_space s = true.
Proof.
  unfold PyStr.strip. intros H.
  now apply lstrip_all_space, rstrip_empty_all_space.
Qed.

Lemma rstrip_idem (s : string) :
  PyStr.rstrip (PyStr.rstrip s) = PyStr.rstrip s.
Proof.
  induction s as [|c r IH]; simpl; [reflexivity|].
  destruct (PyStr.rstrip r) as [|c' r'] eqn:E.
  - destruct (PyStr.isspace c) eqn:Hc; simpl; [reflexivity|now rewrite Hc].
  - cbn [PyStr.rstrip]. cbn [PyStr.rstrip] in IH. now rewrite IH.
Qed.

(** A text that [rstrip] leaves alone does not end in white space. *)
Lemma rstrip_fixed_tail (a w : string) :
  PyStr.rstrip (a ++ w) = a ++ w -> Spec.all_space w = true -> w = "".
Proof.
  induction a as [|x a IH]; simpl; intros Hfix Hw.
  - rewrite (all_space_rstrip _ Hw) in Hfix. now symmetry.
  - destruct (PyStr.rstrip (a ++ w)) as [|c' r'] eqn:E.
    + destruct (PyStr.isspace x).
      * discriminate.
      * injection Hfix as Hfix. symmetry in Hfix.
        destruct a; simpl in Hfix; [assumption|discriminate].
    + injection Hfix as Hfix. apply IH; assumption.
Qed.

Lemma match_literal_nocase_split (lit : string) :
  forall s rest : string,
    PyStr.match_literal_nocase lit s = Some rest ->
    exists pre : string, s = pre ++ rest.
Proof.
  induction lit as [|a lit IH]; intros s rest; simpl.
  - destruct s; intros H; injection H as <-; now exists "".
  - destruct s as [|b s]; [discriminate|].
    destruct (Char.eqb _ _); [|discriminate].
    intros H. destruct (IH _ _ H) as [pre ->]. now exists (String b pre).
Qed.

Lemma verb_then_spaces_split (verb s rest : string) :
  verb_then_spaces verb s = Some rest ->
  exists (pre : string) (sp : char) (r : string),
    s = pre ++ String sp r /\ PyStr.isspace sp = true
    /\ rest = PyStr.lstrip r.
Proof.
  unfold verb_then_spaces.
  destruct (PyStr.match_literal_nocase verb s) as [[|sp r]|] eqn:E;
    try discriminate.
  destruct (PyStr.isspace sp) eqn:Hsp; [|discriminate].
  intros H. injection H as <-.
  destruct (match_literal_nocase_split _ _ _ E) as [pre ->].
  exists pre, sp, r. now rewrite skip_spaces_lstrip.
Qed.

Lemma contains_word_not_blank (a : char) (w s : string) :
  PyStr.isspace a = false ->
  PyStr.contains (String a w) s = true ->
  Spec.all_space s = false.
Proof.
  intros Ha. induction s as [|c r IH]; simpl; [discriminate|].
  destruct (char_eqb_spec a c) as [<-|Hne].
  - intros _. now rewrite Ha.
  - simpl. intros H. rewrite (IH H). apply andb_false_r.
Qed.

(** What follows the leading verb of a stripped command that names
    "add" or "create" is never blank: the ADD branch always has a
    title. *)
Lemma title_not_blank (x : string) :
  let c := PyStr.strip x in
  PyStr.contains "add" c || PyStr.contains "create" c = true ->
  PyStr.truthy (PyStr.strip (sub_leading_verb c)) = true.
Proof.
  intros c Hverb.
  assert (Hfix : PyStr.rstrip c = c) by apply rstrip_idem.
  assert (Hc : Spec.all_space c = false).
  { apply orb_prop in Hverb. destruct Hverb as [H|H];
      eapply contains_word_not_blank; try exact H; reflexivity. }
  assert (Htail : forall verb rest,
             verb_then_spaces verb c = Some rest ->
             Spec.all_space rest = false).
  { intros verb rest Hv.
    destruct (verb_then_spaces_split _ _ _ Hv)
      as (pre & sp & r & Hs & Hsp & ->).
    destruct (Spec.all_space (PyStr.lstrip r)) eqn:Hr; [|reflexivity].
    apply lstrip_all_space in Hr. rewrite Hs in Hfix.
    apply rstrip_fixed_tail in Hfix; [discriminate|].
    simpl. now rewrite Hsp, Hr. }
  destruct (PyStr.strip (sub_leading_verb c)) eqn:Ht; [|reflexivity].
  apply strip_empty_all_space in Ht. unfold sub_leading_verb in Ht.
  destruct (verb_then_spaces "add" c) as [rest|] eqn:Ea.
  - rewrite (Htail _ _ Ea) in Ht. discriminate.
  - destruct (verb_then_spaces "create" c) as [rest|] eqn:Ec.
    + rewrite (Htail _ _ Ec) in Ht. discriminate.
    + congruence.
Qed.

(** C7, amended. A command that, in lower case and stripped, contains
    "add" or "create" and is more than the bare verb takes the ADD
    branch: the leading verb is stripped, the rest is the title, and a
    task with that title, priority MEDIUM, status TODO, no
    description, due date or tag, the id [len(tasks) + 1] and the
    reading of the clock is appended to the caller's own list, which
    is also the list the result carries. A command that contains
    neither word leaves the caller's list as it was. *)
Theorem fallback_add_appends_in_place
  (k : nat) (command : string) (tasks : list Task) :
  let c := PyStr.strip (str_lower command) in
  let title := PyStr.strip (sub_leading_verb c) in
  (PyStr.contains "add" c || PyStr.contains "create" c = true ->
   c <> "add" -> c <> "create" ->
   fallback_process k command tasks
   = (ok_result ("Added task: " ++ title) PStore "ADD",
      (tasks ++ [mkTask (Some (Z.of_nat (List.length tasks) + 1)%Z)
                        title None MEDIUM None TODO []
                        (Some (clock k))])%list,
      S k))
  /\ (PyStr.contains "add" c || PyStr.contains "create" c = false ->
        snd (fst (fallback_process k command tasks)) = tasks
        /\ snd (fallback_process k command tasks) = k).
Proof.
  intros c title. split.
  - intros Hverb _ _.
    pose proof (title_not_blank (str_lower command) Hverb) as Htitle.
    fold c in Htitle. fold title in Htitle.
    unfold fallback_process. fold c. rewrite Hverb. fold title.
    now rewrite Htitle.
  - intros Hverb. unfold fallback_process. fold c. rewrite Hverb.
    destruct (PyStr.contains "list" c); [now split|].
    destruct (PyStr.contains "prioritize" c || PyStr.contains "sort" c);
      now split.
Qed.

(* ================================================================ *)
(** ** The extraction patterns *)

Lemma space_not_fence (c : char) (r : string) :
  PyStr.isspace c = true ->
  PyStr.match_literal Extract.fence (String c r) = None.
Proof.
  intros Hc. unfold Extract.fence. cbn [PyStr.match_literal].
  destruct (char_eqb_spec 96%N c) as [<-|_]; [|reflexivity].
  vm_compute in Hc. discriminate.
Qed.

Lemma ws_then_fence_unfold (s : string) :
  Extract.ws_then_fence s =
  (match s with
   | String c r => PyStr.isspace c && Extract.ws_then_fence r
   | EmptyString => false
   end) || Spec.is_some (PyStr.match_literal Extract.fence s).
Proof.
  destruct s as [|c r]; cbn [Extract.ws_then_fence].
  - reflexivity.
  - destruct (PyStr.isspace c); cbn [andb orb]; [|reflexivity].
    destruct (Extract.ws_then_fence r); reflexivity.
Qed.

(** [\s*```] matches where white space, and nothing else, stands
    before the next fence. *)
Lemma ws_then_fence_before (s : string) :
  Extract.ws_then_fence s = true ->
  exists w : string, Spec.before_fence s = Some w /\ Spec.all_space w = true.
Proof.
  induction s as [|c r IH]; rewrite ws_then_fence_unfold; intros H.
  - discriminate.
  - cbn [Spec.before_fence].
    destruct (Spec.is_some (PyStr.match_literal Extract.fence (String c r))).
    + now exists "".
    + rewrite orb_false_r in H. apply andb_prop in H. destruct H as [Hc Hr].
      destruct (IH Hr) as (w & -> & Hw). exists (String c w). split.
      * reflexivity.
      * simpl. now rewrite Hc, Hw.
Qed.

Lemma before_fence_blank (s : string) :
  forall x : string,
    Spec.before_fence s = Some x -> Spec.all_space x = true ->
    Extract.ws_then_fence s = true.
Proof.
  induction s as [|c r IH]; intros x; rewrite ws_then_fence_unfold;
    cbn [Spec.before_fence].
  - destruct (Spec.is_some (PyStr.match_literal Extract.fence ""));
      [reflexivity|discriminate].
  - destruct (Spec.is_some (PyStr.match_literal Extract.fence (String c r)));
      [intros; apply orb_true_r|].
    destruct (Spec.before_fence r) as [x'|]; [|discriminate].
    intros H. injection H as <-. simpl. intros H.
    apply andb_prop in H. destruct H as [Hc Hx'].
    now rewrite Hc, (IH x' eq_refl Hx').
Qed.

(** The lazy group stops at the first fence and gives back the white
    space that stands before it. *)
Lemma lazy_group_before (s : string) :
  Extract.lazy_group s = option_map PyStr.rstrip (Spec.before_fence s).
Proof.
  induction s as [|c r IH]; cbn [Extract.lazy_group].
  - reflexivity.
  - destruct (Extract.ws_then_fence (String c r)) eqn:E.
    + destruct (ws_then_fence_before _ E) as (w & -> & Hw). simpl.
      now rewrite (all_space_rstrip _ Hw).
    + pose proof E as E'. rewrite ws_then_fence_unfold in E'.
      apply orb_false_elim in E'. destruct E' as [Hws Hlit].
      cbn [Spec.before_fence]. rewrite Hlit, IH.
      destruct (Spec.before_fence r) as [x|] eqn:Ex; [|reflexivity].
      cbn [option_map]. f_equal. cbn [PyStr.rstrip].
      destruct (PyStr.rstrip x) as [|c' r'] eqn:Er; [|reflexivity].
      destruct (PyStr.isspace c) eqn:Hc; [|reflexivity].
      apply rstrip_empty_all_space in Er.
      rewrite (before_fence_blank _ _ Ex Er) in Hws. discriminate.
Qed.

Lemma before_fence_space (c : char) (r : string) :
  PyStr.isspace c = true ->
  Spec.before_fence (String c r) = option_map (String c) (Spec.before_fence r).
Proof.
  intros Hc. cbn [Spec.before_fence]. now rewrite (space_not_fence _ _ Hc).
Qed.

Lemma before_fence_lstrip_none (s : string) :
  Spec.before_fence (PyStr.lstrip s) = None -> Spec.before_fence s = None.
Proof.
  induction s as [|c r IH]; cbn [PyStr.lstrip]; [auto|].
  destruct (PyStr.isspace c) eqn:Hc; [|auto].
  intros H. now rewrite (before_fence_space _ _ Hc), (IH H).
Qed.

(** The greedy white space before the group takes all there is. *)
Lemma ws_then_group_content (s : string) :
  Extract.ws_then_group s = Spec.block_content s.
Proof.
  unfold Spec.block_content. rewrite <- lazy_group_before.
  induction s as [|c r IH]; cbn [Extract.ws_then_group PyStr.lstrip].
  - reflexivity.
  - destruct (PyStr.isspace c) eqn:Hc; [|reflexivity].
    rewrite IH. destruct (Extract.lazy_group (PyStr.lstrip r)) eqn:E;
      [reflexivity|].
    rewrite lazy_group_before in *.
    destruct (Spec.before_fence (PyStr.lstrip r)) eqn:Eb; [discriminate|].
    apply before_fence_lstrip_none in Eb.
    now rewrite (before_fence_space _ _ Hc), Eb.
Qed.

Lemma search_fenced_first_block (s : string) :
  Extract.search_fenced s = Spec.first_fenced_block s.
Proof.
  induction s as [|c r IH];
    cbn [Extract.search_fenced Spec.first_fenced_block].
  - destruct (PyStr.match_literal Extract.fence_json ""); [|reflexivity].
    now rewrite ws_then_group_content.
  - rewrite IH.
    destruct (PyStr.match_literal Extract.fence_json (String c r));
      [|reflexivity].
    now rewrite ws_then_group_content.
Qed.

Lemma has_char_app (c : char) (a b : string) :
  Spec.has_char c (a ++ b) = Spec.has_char c a || Spec.has_char c b.
Proof.
  induction a as [|x a IH]; simpl; [reflexivity|].
  now rewrite IH, orb_assoc.
Qed.

(** [[\s\S]*\}] runs to the last closing brace. *)
Lemma any_then_close_last (s : string) :
  match Extract.any_then_close s with
  | Some m =>
      exists mid post : string,
        m = mid ++ "}" /\ s = mid ++ "}" ++ post
        /\ Spec.has_char rbrace post = false
  | None => Spec.has_char rbrace s = false
  end.
Proof.
  induction s as [|c r IH]; cbn [Extract.any_then_close]; [reflexivity|].
  destruct (Extract.any_then_close r) as [m|].
  - destruct IH as (mid & post & -> & -> & Hpost).
    now exists (String c mid), post.
  - destruct (char_eqb_spec c rbrace) as [->|Hne].
    + now exists "", r.
    + simpl. rewrite IH. now destruct (char_eqb_spec c rbrace).
Qed.

(** The second pattern takes the text from the first opening brace to
    the last closing brace, and fails only where no closing brace
    follows an opening one. *)
Lemma search_braces_outer (s : string) :
  match Extract.search_braces s with
  | Some m =>
      exists pre mid post : string,
        s = pre ++ "{" ++ mid ++ "}" ++ post
        /\ Spec.has_char lbrace pre = false
        /\ Spec.has_char rbrace post = false
        /\ m = "{" ++ mid ++ "}"
  | None =>
      forall pre rest : string,
        s = pre ++ "{" ++ rest -> Spec.has_char rbrace rest = false
  end.
Proof.
  induction s as [|c r IH]; cbn [Extract.search_braces].
  - intros [|x pre] rest H; discriminate.
  - destruct (char_eqb_spec c lbrace) as [->|Hne].
    + pose proof (any_then_close_last r) as Hclose.
      destruct (Extract.any_then_close r) as [m|]; cbn [option_map].
      * destruct Hclose as (mid & post & -> & -> & Hpost).
        now exists "", mid, post.
      * destruct (Extract.search_braces r) as [m|].
        -- destruct IH as (pre & mid & post & -> & _ & _ & _).
           rewrite !has_char_app in Hclose. simpl in Hclose.
           rewrite !orb_true_r in Hclose. discriminate.
        -- intros [|x pre] rest H; simpl in H.
           ++ injection H as ->. exact Hclose.
           ++ injection H as _ ->. eapply IH. reflexivity.
    + destruct (Extract.search_braces r) as [m|].
      * destruct IH as (pre & mid & post & -> & Hpre & Hpost & ->).
        exists (String c pre), mid, post. repeat split; auto.
        simpl. rewrite Hpre. now destruct (char_eqb_spec c lbrace).
      * intros [|x pre] rest H; simpl in H.
        -- injection H as Hc _. destruct (Hne Hc).
        -- injection H as _ ->. eapply IH. reflexivity.
Qed.

(** *** The shape of the first fenced block *)

Lemma string_app_assoc (a b c : string) : (a ++ b) ++ c = a ++ b ++ c.
Proof. induction a as [|x a IH]; simpl; [reflexivity|now rewrite IH]. Qed.

Lemma match_literal_split (lit : string) :
  forall s rest : string,
    PyStr.match_literal lit s = Some rest -> s = lit ++ rest.
Proof.
  induction lit as [|a lit IH]; intros s rest; simpl.
  - destruct s; intros H; now injection H as <-.
  - destruct s as [|b s]; [discriminate|].
    destruct (char_eqb_spec a b) as [<-|_]; [|discriminate].
    intros H. now rewrite (IH _ _ H).
Qed.

Lemma match_literal_complete (lit q : string) :
  PyStr.match_literal lit (lit ++ q) = Some q.
Proof.
  induction lit as [|a lit IH]; simpl.
  - now destruct q.
  - now rewrite char_eqb_refl.
Qed.

Lemma lstrip_split (s : string) :
  exists w : string, s = w ++ PyStr.lstrip s /\ Spec.all_space w = true.
Proof.
  induction s as [|c r IH]; simpl.
  - now exists "".
  - destruct (PyStr.isspace c) eqn:Hc.
    + destruct IH as (w & Hw & Hsp). exists (String c w). simpl.
      rewrite Hc, Hsp. split; [now rewrite <- Hw|reflexivity].
    + now exists "".
Qed.

Lemma rstrip_split (s : string) :
  exists w : string, s = PyStr.rstrip s ++ w /\ Spec.all_space w = true.
Proof.
  induction s as [|c r IH]; simpl.
  - now exists "".
  - destruct IH as (w & Hw & Hsp).
    destruct (PyStr.rstrip r) as [|c' r'] eqn:E.
    + simpl in Hw. subst w. destruct (PyStr.isspace c) eqn:Hc.
      * exists (String c r). simpl. now rewrite Hc, Hsp.
      * now exists r.
    + exists w. split; [|assumption].
      change (String c r = String c (String c' r' ++ w)). now f_equal.
Qed.

Lemma before_fence_split (s : string) :
  forall x : string,
    Spec.before_fence s = Some x ->
    exists post : string, s = x ++ Extract.fence ++ post.
Proof.
  induction s as [|c r IH]; intros x; cbn [Spec.before_fence].
  - cbn. discriminate.
  - destruct (PyStr.match_literal Extract.fence (String c r)) as [post|] eqn:E;
      cbn [Spec.is_some].
    + intros H. injection H as <-. exists post.
      now apply match_literal_split in E.
    + destruct (Spec.before_fence r) as [x'|]; [|discriminate].
      intros H. injection H as <-. destruct (IH x' eq_refl) as [post ->].
      now exists post.
Qed.

(** The content of a block: white space, the content, white space, the
    closing fence, which is the first fence after the content starts. *)
Lemma block_content_shape (rest g : string) :
  Spec.block_content rest = Some g ->
  exists w1 w2 post : string,
    rest = w1 ++ g ++ w2 ++ Extract.fence ++ post
    /\ Spec.all_space w1 = true /\ Spec.all_space w2 = true
    /\ Spec.before_fence (g ++ w2 ++ Extract.fence ++ post) = Some (g ++ w2).
Proof.
  unfold Spec.block_content.
  destruct (Spec.before_fence (PyStr.lstrip rest)) as [x|] eqn:Ex;
    [|discriminate].
  intros H. injection H as <-.
  destruct (lstrip_split rest) as (w1 & Hrest & Hw1).
  destruct (rstrip_split x) as (w2 & Hx & Hw2).
  destruct (before_fence_split _ _ Ex) as [post Hpost].
  exists w1, w2, post.
  assert (Hl : PyStr.lstrip rest
               = PyStr.rstrip x ++ w2 ++ Extract.fence ++ post).
  { rewrite Hpost. rewrite Hx at 1. apply string_app_assoc. }
  repeat split; try assumption.
  - rewrite Hrest at 1. now rewrite Hl.
  - rewrite <- Hl, Ex. now rewrite <- Hx.
Qed.

Lemma fence_json_is_fence (s rest : string) :
  PyStr.match_literal Extract.fence_json s = Some rest ->
  Spec.is_some (PyStr.match_literal Extract.fence s) = true.
Proof.
  intros H. apply match_literal_split in H. subst s.
  change (Extract.fence_json ++ rest) with (Extract.fence ++ "json" ++ rest).
  now rewrite match_literal_complete.
Qed.

Lemma no_fence_no_block (t : string) :
  Spec.before_fence t = None -> Spec.first_fenced_block t = None.
Proof.
  induction t as [|c r IH];
    cbn [Spec.before_fence Spec.first_fenced_block].
  - reflexivity.
  - destruct (PyStr.match_literal Extract.fence_json (String c r)) eqn:E.
    + now rewrite (fence_json_is_fence _ _ E).
    + destruct (Spec.is_some _); [discriminate|].
      destruct (Spec.before_fence r); [discriminate|]. intros _. now apply IH.
Qed.

(** An opening fence that is never closed: no later block either. *)
Lemma unclosed_opening (rest : string) :
  Spec.before_fence rest = None ->
  Spec.first_fenced_block ("``json" ++ rest) = None.
Proof.
  intros H. apply no_fence_no_block. cbn. now rewrite H.
Qed.

Lemma first_fenced_block_shape (text : string) :
  forall g : string,
    Spec.first_fenced_block text = Some g ->
    exists pre rest : string,
      text = pre ++ Extract.fence_json ++ rest
      /\ Spec.block_content rest = Some g
      /\ forall p q : string,
          text = p ++ Extract.fence_json ++ q ->
          Str.length pre <= Str.length p.
Proof.
  induction text as [|c r IH]; intros g; cbn [Spec.first_fenced_block].
  - cbn. discriminate.
  - destruct (PyStr.match_literal Extract.fence_json (String c r))
      as [rest|] eqn:E.
    + destruct (Spec.block_content rest) as [g'|] eqn:Eg.
      * intros H. injection H as <-. exists "", rest.
        split; [exact (match_literal_split _ _ _ E)|]. split; [assumption|].
        intros; simpl; lia.
      * pose proof (match_literal_split _ _ _ E) as Hs.
        injection Hs as -> ->.
        unfold Spec.block_content in Eg.
        destruct (Spec.before_fence (PyStr.lstrip rest)) eqn:Eb;
          [discriminate|].
        apply before_fence_lstrip_none in Eb.
        pose proof (unclosed_opening _ Eb) as Hu. cbn [Str.append] in Hu.
        now rewrite Hu.
    + intros H. destruct (IH g H) as (pre & rest & -> & Hg & Hfirst).
      exists (String c pre), rest. split; [reflexivity|].
      split; [assumption|]. intros [|x p] q Hq.
      * change (String c (pre ++ Extract.fence_json ++ rest)
                = Extract.fence_json ++ q) in Hq.
        pose proof (match_literal_complete Extract.fence_json q) as Hc.
        rewrite <- Hq in Hc. congruence.
      * simpl in Hq. injection Hq as _ Hq. simpl.
        specialize (Hfirst p q Hq). lia.
Qed.

(** C6, amended. The text is searched first for a fenced block labeled
    as JSON, and the content of the first one, without the white space
    around it, is taken: the block opens at the leftmost [```json] that
    a fence follows, and closes at the next fence. Without such a
    block, the text from the first opening brace to the last closing
    brace is taken (not the first top-level span). Where no closing brace follows an opening one, the
    result is the failure "Failed to parse LLM response", and its task
    list is the list the interpreter was given. *)
Theorem extraction_order (text : string) :
  Extract.search_fenced text = Spec.first_fenced_block text
  /\ (forall g : string,
        Spec.first_fenced_block text = Some g ->
        Extract.extract_json text = Some g
        /\ exists pre w1 w2 post : string,
            text = pre ++ Extract.fence_json ++ w1 ++ g ++ w2
                   ++ Extract.fence ++ post
            /\ Spec.all_space w1 = true /\ Spec.all_space w2 = true
            /\ Spec.before_fence (g ++ w2 ++ Extract.fence ++ post)
               = Some (g ++ w2)
            /\ forall p q : string,
                text = p ++ Extract.fence_json ++ q ->
                Str.length pre <= Str.length p)
  /\ (Spec.first_fenced_block text = None ->
      match Extract.extract_json text with
      | Some m =>
          exists pre mid post : string,
            text = pre ++ "{" ++ mid ++ "}" ++ post
            /\ Spec.has_char lbrace pre = false
            /\ Spec.has_char rbrace post = false
            /\ m = "{" ++ mid ++ "}"
      | None =>
          (forall pre rest : string,
              text = pre ++ "{" ++ rest -> Spec.has_char rbrace rest = false)
          /\ interpret_response text
             = mkResult false (JStr "Failed to parse LLM response") PStore None
      end).
Proof.
  split; [apply search_fenced_first_block|]. split.
  - intros g Hg. split.
    + unfold Extract.extract_json. now rewrite search_fenced_first_block, Hg.
    + destruct (first_fenced_block_shape _ _ Hg)
        as (pre & rest & -> & Hcontent & Hfirst).
      destruct (block_content_shape _ _ Hcontent)
        as (w1 & w2 & post & -> & Hw1 & Hw2 & Hclose).
      now exists pre, w1, w2, post.
  - intros Hnone. unfold interpret_response, Extract.extract_json.
    rewrite search_fenced_first_block, Hnone.
    pose proof (search_braces_outer text) as H.
    destruct (Extract.search_braces text) as [m|]; [exact H|].
    split; [exact H|reflexivity].
Qed.

(* ================================================================ *)
(** ** The orchestrator *)

(** Task objects have no [.get]: the first loop of
    [update_tasks_from_llm] skips every one of them. *)
Lemma convert_items_tasks (l : list Task) (k : nat) :
  convert_items k (map ITask l) = ([], k).
Proof.
  induction l as [|t r IH]; simpl; [reflexivity|]. now rewrite IH.
Qed.

Lemma update_tasks_from_llm_tasks (k : nat) (p : payload) (tm : TaskManager) :
  (forall j, p <> PJson j) ->
  update_tasks_from_llm k p tm = inr (mkTaskManager [] (next_id tm), k).
Proof.
  intros Hp. unfold update_tasks_from_llm.
  destruct p as [|l|j]; simpl.
  - now rewrite convert_items_tasks.
  - now rewrite convert_items_tasks.
  - now destruct (Hp j).
Qed.

(** The keyword interpreter always succeeds, and its payload is a list
    of task objects. *)
Lemma fallback_process_shape (k : nat) (command : string) (tasks : list Task) :
  r_success (fst (fst (fallback_process k command tasks))) = true
  /\ forall j,
       r_tasks (fst (fst (fallback_process k command tasks))) <> PJson j.
Proof.
  unfold fallback_process.
  repeat match goal with
         | |- context [if ?b then _ else _] => destruct b
         end; simpl; split; try reflexivity; intros j; discriminate.
Qed.

(** After a failure of the language model interpreter the response
    carries the message of the keyword interpreter, but the commit
    drops its tasks. *)
Lemma process_result_after_failure
  (r0 : result) (k : nat) (command : string) (tm : TaskManager) :
  r_success r0 = false ->
  process_result r0 k command tm
  = (mkResponse true
       (r_message (fst (fst (fallback_process k command (tasks tm))))) [],
     mkTaskManager [] (next_id tm),
     snd (fallback_process k command (tasks tm))).
Proof.
  intros Hfail. unfold process_result. rewrite Hfail. cbn [negb].
  pose proof (fallback_process_shape k command (tasks tm)) as [Hs Hp].
  destruct (fallback_process k command (tasks tm)) as [[fb l] k1].
  cbn [fst snd] in *. rewrite Hs.
  rewrite update_tasks_from_llm_tasks by assumption. reflexivity.
Qed.

(** C1, what the code does: whenever the language model interpreter
    fails, the orchestrator answers with the message of the keyword
    interpreter, but with an empty task list, and the store is left
    empty: the tasks the keyword interpreter returned are task objects,
    and the commit keeps dictionaries only. *)
Theorem fallback_commit_drops_every_task
  (http : http_outcome) (k : nat) (command : string) (tm : TaskManager) :
  r_success (llm_process_command http) = false ->
  process_command http k command tm
  = (mkResponse true
       (r_message (fst (fst (fallback_process k command (tasks tm))))) [],
     mkTaskManager [] (next_id tm),
     snd (fallback_process k command (tasks tm))).
Proof.
  intros Hfail. unfold process_command.
  now rewrite process_result_after_failure.
Qed.


Lemma with_action_same (a : option json) (r : result) :
  r_success (with_action a r) = r_success r
  /\ r_message (with_action a r) = r_message r
  /\ r_tasks (with_action a r) = r_tasks r.
Proof. now destruct r. Qed.

(** C10. Two interpreter results that agree on [success], [message] and
    [tasks], whatever their [action] entries are, lead to the same
    response, the same store and the same clock reading. *)
Theorem action_tag_is_not_committed
  (r1 r2 : result) (k : nat) (command : string) (tm : TaskManager) :
  r_success r1 = r_success r2 ->
  r_message r1 = r_message r2 ->
  r_tasks r1 = r_tasks r2 ->
  process_result r1 k command tm = process_result r2 k command tm.
Proof.
  intros Hs Hm Ht. unfold process_result. rewrite Hs.
  destruct (r_success r2) eqn:E; cbn [negb].
  - rewrite Hs, E, Hm, Ht. reflexivity.
  - reflexivity.
Qed.

(* ================================================================ *)
(** ** Lookups, deletions and round trips of the store *)

Lemma get_task_in_found (task_id : Z) (old : Task) (l2 : list Task) :
  forall l1 : list Task,
    (forall x, In x l1 -> id x <> Some task_id) ->
    id old = Some task_id ->
    get_task_in (l1 ++ old :: l2)%list task_id = Some old.
Proof.
  induction l1 as [|x l1 IH]; intros Hl1 Hold; simpl.
  - apply id_is_true in Hold. now rewrite Hold.
  - assert (Hx : id_is task_id x = false)
      by (apply id_is_false, Hl1; now left).
    rewrite Hx. apply IH; auto. intros y Hy. apply Hl1. now right.
Qed.

Lemma get_task_in_missing (task_id : Z) :
  forall l : list Task,
    (forall x, In x l -> id x <> Some task_id) ->
    get_task_in l task_id = None.
Proof.
  induction l as [|x l IH]; intros Hl; simpl; [reflexivity|].
  assert (Hx : id_is task_id x = false)
    by (apply id_is_false, Hl; now left).
  rewrite Hx. apply IH. intros y Hy. apply Hl. now right.
Qed.

Lemma get_task_in_split (task_id : Z) :
  forall (l : list Task) (t : Task),
    get_task_in l task_id = Some t ->
    exists l1 l2 : list Task,
      l = (l1 ++ t :: l2)%list
      /\ (forall x, In x l1 -> id x <> Some task_id)
      /\ id t = Some task_id.
Proof.
  induction l as [|x l IH]; intros t; simpl; [discriminate|].
  destruct (id_is task_id x) eqn:Hx.
  - intros H. injection H as <-. exists [], l. split; [reflexivity|].
    split; [intros y []|now apply id_is_true].
  - intros H. destruct (IH t H) as (l1 & l2 & -> & Hl1 & Ht).
    exists (x :: l1), l2. split; [reflexivity|]. split; [|assumption].
    intros y [<-|Hy]; [now apply id_is_false|now apply Hl1].
Qed.

Lemma get_task_in_none (task_id : Z) :
  forall l : list Task,
    get_task_in l task_id = None ->
    forall x, In x l -> id x <> Some task_id.
Proof.
  induction l as [|y l IH]; simpl; [intros _ x []|].
  destruct (id_is task_id y) eqn:Hy; [discriminate|].
  intros H x [<-|Hx]; [now apply id_is_false|now apply IH].
Qed.

(** [get_task] returns the first stored task of the id, and [None]
    exactly when no stored task has it. *)
Theorem get_task_finds_first (task_id : Z) (tm : TaskManager) :
  match get_task task_id tm with
  | Some t =>
      exists l1 l2 : list Task,
        tasks tm = (l1 ++ t :: l2)%list
        /\ (forall x, In x l1 -> id x <> Some task_id)
        /\ id t = Some task_id
  | None => forall x, In x (tasks tm) -> id x <> Some task_id
  end.
Proof.
  unfold get_task. destruct (get_task_in (tasks tm) task_id) as [t|] eqn:E.
  - now apply get_task_in_split.
  - now apply get_task_in_none.
Qed.

Lemma delete_task_in_found (task_id : Z) (old : Task) (l2 : list Task) :
  forall l1 : list Task,
    (forall x, In x l1 -> id x <> Some task_id) ->
    id old = Some task_id ->
    delete_task_in (l1 ++ old :: l2)%list task_id = Some (l1 ++ l2)%list.
Proof.
  induction l1 as [|x l1 IH]; intros Hl1 Hold; simpl.
  - apply id_is_true in Hold. now rewrite Hold.
  - assert (Hx : id_is task_id x = false)
      by (apply id_is_false, Hl1; now left).
    rewrite Hx, IH; auto. intros y Hy. apply Hl1. now right.
Qed.

Lemma delete_task_in_missing (task_id : Z) :
  forall l : list Task,
    (forall x, In x l -> id x <> Some task_id) ->
    delete_task_in l task_id = None.
Proof.
  induction l as [|x l IH]; intros Hl; simpl; [reflexivity|].
  assert (Hx : id_is task_id x = false)
    by (apply id_is_false, Hl; now left).
  rewrite Hx, IH; auto. intros y Hy. apply Hl. now right.
Qed.

(** [delete_task] removes the first stored task of the id and nothing
    else: the other tasks keep their order and the counter its value.
    Where no stored task has the id, it returns [False] and the store
    is as before. *)
Theorem delete_task_removes_first (task_id : Z) (tm : TaskManager) :
  (forall (l1 : list Task) (old : Task) (l2 : list Task),
      tasks tm = (l1 ++ old :: l2)%list ->
      (forall x, In x l1 -> id x <> Some task_id) ->
      id old = Some task_id ->
      delete_task task_id tm
      = (true, mkTaskManager (l1 ++ l2)%list (next_id tm)))
  /\ ((forall x, In x (tasks tm) -> id x <> Some task_id) ->
      delete_task task_id tm = (false, tm)).
Proof.
  split.
  - intros l1 old l2 Htm Hl1 Hold. unfold delete_task.
    now rewrite Htm, delete_task_in_found.
  - intros Hnone. unfold delete_task.
    now rewrite delete_task_in_missing.
Qed.

(** What [add_task] returns can be looked up under its id, provided no
    stored task had that id already. *)
Theorem add_task_then_get_task (task : Task) (tm : TaskManager) (i : Z) :
  id (fst (add_task task tm)) = Some i ->
  (forall x, In x (tasks tm) -> id x <> Some i) ->
  get_task i (snd (add_task task tm)) = Some (fst (add_task task tm)).
Proof.
  unfold add_task, get_task.
  destruct (_assign_task_id task tm) as [task' tm'] eqn:E. simpl.
  intros Hid Hnone.
  assert (Htasks : tasks tm' = tasks tm).
  { unfold _assign_task_id in E. destruct (id task); injection E as _ <-;
      reflexivity. }
  rewrite Htasks. apply get_task_in_found; assumption.
Qed.

(** After [update_task], [get_task] under the same id gives what the
    update returned: the updated task, or [None] where there was no
    task to update. *)
Theorem update_task_then_get_task (task_id : Z) (t : Task) (tm : TaskManager) :
  get_task task_id (snd (update_task task_id t tm))
  = fst (update_task task_id t tm).
Proof.
  unfold get_task, update_task.
  destruct (get_task_in (tasks tm) task_id) as [old|] eqn:E.
  - destruct (get_task_in_split _ _ _ E) as (l1 & l2 & Hl & Hl1 & Hold).
    rewrite Hl, update_task_in_found by assumption. simpl.
    apply get_task_in_found; [assumption|apply prepare_update_id].
  - pose proof (get_task_in_none _ _ E) as Hnone.
    rewrite update_task_in_missing by assumption. exact E.
Qed.

Lemma NoDup_ids_app (task_id : Z) (old : Task) :
  forall l1 l2 : list Task,
    NoDup (map id (l1 ++ old :: l2)%list) ->
    id old = Some task_id ->
    forall x, In x (l1 ++ l2)%list -> id x <> Some task_id.
Proof.
  intros l1 l2 Hnd Hold x Hx Hxid.
  rewrite map_app in Hnd. simpl in Hnd.
  apply NoDup_remove_2 in Hnd. apply Hnd.
  rewrite Hold, <- Hxid, <- map_app. now apply in_map.
Qed.

(** Where the stored ids are pairwise distinct, a deleted id cannot be
    looked up any more. *)
Theorem delete_task_then_get_task (task_id : Z) (tm : TaskManager) :
  NoDup (map id (tasks tm)) ->
  get_task task_id (snd (delete_task task_id tm)) = None.
Proof.
  intros Hnd. unfold get_task, delete_task.
  destruct (get_task_in (tasks tm) task_id) as [old|] eqn:E.
  - destruct (get_task_in_split _ _ _ E) as (l1 & l2 & Hl & Hl1 & Hold).
    rewrite Hl, delete_task_in_found by assumption. simpl.
    apply get_task_in_missing. rewrite Hl in Hnd.
    now apply (NoDup_ids_app _ _ _ _ Hnd Hold).
  - pose proof (get_task_in_none _ _ E) as Hnone.
    rewrite delete_task_in_missing by assumption. exact E.
Qed.

Lemma get_task_in_app (j : Z) (l1 l2 : list Task) :
  get_task_in (l1 ++ l2)%list j
  = match get_task_in l1 j with
    | Some t => Some t
    | None => get_task_in l2 j
    end.
Proof.
  induction l1 as [|x l1 IH]; simpl; [reflexivity|].
  now destruct (id_is j x).
Qed.

(** An operation on one id leaves the lookups of the other ids as they
    were: deleting or updating the task of id [i], or adding a task
    that gets the id [i], does not change [get_task(j)] for [j] other
    than [i]. *)
Theorem get_task_of_other_ids (i j : Z) (t : Task) (tm : TaskManager) :
  i <> j ->
  get_task j (snd (delete_task i tm)) = get_task j tm
  /\ get_task j (snd (update_task i t tm)) = get_task j tm
  /\ (id (fst (add_task t tm)) = Some i ->
      get_task j (snd (add_task t tm)) = get_task j tm).
Proof.
  intros Hij.
  assert (Hother : forall x, id x = Some i -> id_is j x = false).
  { intros x Hx. apply id_is_false. rewrite Hx. congruence. }
  split; [|split].
  - unfold get_task, delete_task.
    destruct (get_task_in (tasks tm) i) as [old|] eqn:E.
    + destruct (get_task_in_split _ _ _ E) as (l1 & l2 & Hl & Hl1 & Hold).
      rewrite Hl, delete_task_in_found by assumption. simpl.
      rewrite !get_task_in_app. simpl. now rewrite (Hother _ Hold).
    + rewrite delete_task_in_missing; [reflexivity|].
      now apply get_task_in_none.
  - unfold get_task, update_task.
    destruct (get_task_in (tasks tm) i) as [old|] eqn:E.
    + destruct (get_task_in_split _ _ _ E) as (l1 & l2 & Hl & Hl1 & Hold).
      rewrite Hl, update_task_in_found by assumption. simpl.
      rewrite !get_task_in_app. simpl.
      rewrite (Hother _ Hold), (Hother _ (prepare_update_id i t old)).
      reflexivity.
    + rewrite update_task_in_missing; [reflexivity|].
      now apply get_task_in_none.
  - unfold add_task, get_task.
    destruct (_assign_task_id t tm) as [task' tm'] eqn:E. simpl.
    intros Hid.
    assert (Htasks : tasks tm' = tasks tm).
    { unfold _assign_task_id in E. destruct (id t); injection E as _ <-;
        reflexivity. }
    rewrite Htasks, get_task_in_app. simpl. rewrite (Hother _ Hid).
    now destruct (get_task_in (tasks tm) j).
Qed.

(** The endpoints answer 404 on the same ids: [GET], [PUT] and [DELETE]
    of an id raise "Task not found" exactly when no stored task has the
    id, and then the store is as before. *)
Theorem endpoints_agree_on_404 (task_id : Z) (t : Task) (tm : TaskManager) :
  (API.get_task task_id tm = HTTPException 404 "Task not found"
   <-> forall x, In x (tasks tm) -> id x <> Some task_id)
  /\ (API.update_task task_id t tm
      = (HTTPException 404 "Task not found", tm)
      <-> forall x, In x (tasks tm) -> id x <> Some task_id)
  /\ (API.delete_task task_id tm
      = (HTTPException 404 "Task not found", tm)
      <-> forall x, In x (tasks tm) -> id x <> Some task_id).
Proof.
  unfold API.get_task, API.update_task, API.delete_task.
  unfold get_task, update_task, delete_task.
  destruct (get_task_in (tasks tm) task_id) as [old|] eqn:E.
  - destruct (get_task_in_split _ _ _ E) as (l1 & l2 & Hl & Hl1 & Hold).
    assert (Hsome : ~ (forall x, In x (tasks tm) -> id x <> Some task_id)).
    { intros H. apply (H old); [|assumption]. rewrite Hl.
      apply in_or_app. right. now left. }
    assert (Hu : update_task_in (tasks tm) task_id t
                 = Some (prepare_update task_id t old,
                         (l1 ++ prepare_update task_id t old :: l2)%list))
      by (rewrite Hl; now apply update_task_in_found).
    assert (Hd : delete_task_in (tasks tm) task_id = Some (l1 ++ l2)%list)
      by (rewrite Hl; now apply delete_task_in_found).
    rewrite Hu, Hd.
    repeat split; intros H; try discriminate; now destruct Hsome.
  - pose proof (get_task_in_none _ _ E) as Hnone.
    rewrite update_task_in_missing, delete_task_in_missing by assumption.
    repeat split; auto.
Qed.

(* ================================================================ *)
(** ** Ids of the committed tasks *)

Lemma count_from_S (n : Z) (m : nat) :
  count_from n (S m) = n :: count_from (n + 1) m.
Proof.
  unfold count_from. cbn [seq map]. f_equal; [lia|].
  rewrite <- seq_shift, map_map. apply map_ext. intros i. lia.
Qed.

(** The second loop of [update_tasks_from_llm]: a task that carries an
    id is kept as it is, a task without one only gets an id; the ids
    given are the values of the counter, one after the other, in the
    order of the list, and the counter ends after the last of them. *)
Lemma assign_ids_fresh (new_tasks : list Task) :
  forall tm : TaskManager,
    Forall2 (fun t t' => match id t with
                         | Some _ => t' = t
                         | None => exists i : Z, t' = set_id t i
                         end)
            new_tasks (fst (assign_ids new_tasks tm))
    /\ fresh_ids new_tasks (fst (assign_ids new_tasks tm))
       = count_from (next_id tm)
           (List.length (filter (fun t => negb (has_id t)) new_tasks))
    /\ next_id (snd (assign_ids new_tasks tm))
       = (next_id tm
          + Z.of_nat (List.length
                        (filter (fun t => negb (has_id t)) new_tasks)))%Z
    /\ tasks (snd (assign_ids new_tasks tm)) = tasks tm.
Proof.
  induction new_tasks as [|task r IH]; intros tm.
  - simpl. repeat split; [constructor|lia].
  - cbn [assign_ids filter].
    destruct (id task) as [i|] eqn:Hid.
    + assert (Hh : has_id task = true) by (unfold has_id; now rewrite Hid).
      rewrite Hh. cbn [negb].
      specialize (IH tm). destruct (assign_ids r tm) as [r' tm''].
      cbn [fst snd] in *. destruct IH as (H2 & Hf & Hn & Ht).
      repeat split; try assumption.
      * constructor; [now rewrite Hid|assumption].
      * cbn [fresh_ids]. now rewrite Hid.
    + assert (Hh : has_id task = false) by (unfold has_id; now rewrite Hid).
      rewrite Hh. cbn [negb List.length].
      unfold _assign_task_id. rewrite Hid.
      specialize (IH (mkTaskManager (tasks tm) (next_id tm + 1))).
      destruct (assign_ids r _) as [r' tm''].
      cbn [fst snd next_id tasks] in *.
      destruct IH as (H2 & Hf & Hn & Ht).
      repeat split; try assumption.
      * constructor; [|assumption]. rewrite Hid. now exists (next_id tm).
      * cbn [fresh_ids]. rewrite Hid. cbn [id set_id].
        now rewrite Hf, count_from_S.
      * rewrite Hn, Nat2Z.inj_succ. lia.
Qed.

(** The same for what [update_tasks_from_llm] leaves in the store. *)
Theorem replacement_numbers_from_counter
  (new_tasks : list Task) (tm : TaskManager) :
  let m := List.length (filter (fun t => negb (has_id t)) new_tasks) in
  Forall2 (fun t t' => match id t with
                       | Some _ => t' = t
                       | None => exists i : Z, t' = set_id t i
                       end)
          new_tasks (tasks (replace_tasks new_tasks tm))
  /\ fresh_ids new_tasks (tasks (replace_tasks new_tasks tm))
     = count_from (next_id tm) m
  /\ next_id (replace_tasks new_tasks tm) = (next_id tm + Z.of_nat m)%Z.
Proof.
  intros m. unfold replace_tasks.
  pose proof (assign_ids_fresh new_tasks tm) as (H2 & Hf & Hn & _).
  destruct (assign_ids new_tasks tm) as [l tm']. simpl in *. auto.
Qed.

Lemma replace_tasks_has_id (new_tasks : list Task) (tm : TaskManager) :
  Forall (fun t => has_id t = true) (tasks (replace_tasks new_tasks tm)).
Proof.
  pose proof (replacement_numbers_from_counter new_tasks tm) as (H2 & _).
  induction H2 as [|t t' l l' Htt' _ IH]; constructor; [|exact IH].
  unfold has_id. destruct (id t) eqn:Hid.
  - subst t'. now rewrite Hid.
  - destruct Htt' as [i ->]. reflexivity.
Qed.

Lemma update_tasks_from_llm_has_id (k : nat) (p : payload)
  (tm tm' : TaskManager) (k' : nat) :
  update_tasks_from_llm k p tm = inr (tm', k') ->
  Forall (fun t => has_id t = true) (tasks tm').
Proof.
  unfold update_tasks_from_llm.
  destruct (iterate p (tasks tm)) as [e|items]; [discriminate|].
  destruct (convert_items k items) as [new_tasks k1].
  intros H. injection H as <- _. apply replace_tasks_has_id.
Qed.

Lemma step_has_id (k : nat) (o : op) (tm : TaskManager) :
  Forall (fun t => has_id t = true) (tasks tm) ->
  Forall (fun t => has_id t = true) (tasks (store_after (step k o tm))).
Proof.
  intros Hall. unfold store_after.
  destruct o as [task|task_id|task_id t|p]; simpl.
  - unfold add_task, _assign_task_id.
    destruct (id task) as [i|] eqn:Hid; simpl;
      apply Forall_app; (split; [assumption|]); constructor;
      try constructor; unfold has_id; simpl; now try rewrite Hid.
  - unfold delete_task.
    destruct (get_task_in (tasks tm) task_id) as [old|] eqn:E.
    + destruct (get_task_in_split _ _ _ E) as (l1 & l2 & Hl & Hl1 & Hold).
      rewrite Hl, delete_task_in_found by assumption. simpl.
      rewrite Hl in Hall. apply Forall_app in Hall.
      destruct Hall as [H1 H2]. apply Forall_app. split; [assumption|].
      now inversion H2.
    + rewrite delete_task_in_missing; [assumption|].
      now apply get_task_in_none.
  - unfold update_task.
    destruct (get_task_in (tasks tm) task_id) as [old|] eqn:E.
    + destruct (get_task_in_split _ _ _ E) as (l1 & l2 & Hl & Hl1 & Hold).
      rewrite Hl, update_task_in_found by assumption. simpl.
      rewrite Hl in Hall. apply Forall_app in Hall.
      destruct Hall as [H1 H2]. apply Forall_app. split; [assumption|].
      inversion H2; subst. constructor; [|assumption].
      unfold has_id. now rewrite prepare_update_id.
    + rewrite update_task_in_missing; [assumption|].
      now apply get_task_in_none.
  - destruct (update_tasks_from_llm k p tm) as [e|[tm' k']] eqn:E; simpl.
    + assumption.
    + eapply update_tasks_from_llm_has_id; eassumption.
Qed.

(** No operation of the store leaves a task without an id in it: where
    every stored task has an id, this is still so after any run of
    [add], [delete], [update] and replacement operations. *)
Theorem stored_tasks_keep_ids (k : nat) (ops : list op) (tm : TaskManager) :
  Forall (fun t => has_id t = true) (tasks tm) ->
  Forall (fun t => has_id t = true) (tasks (store_after (run k ops tm))).
Proof.
  revert k tm. induction ops as [|o r IH]; intros k tm Hall; simpl.
  - exact Hall.
  - pose proof (step_has_id k o tm Hall) as Hstep.
    destruct (step k o tm) as [[ids1 tm1] k1].
    specialize (IH k1 tm1 Hstep).
    destruct (run k1 r tm1) as [[ids2 tm2] k2]. exact IH.
Qed.

(* ================================================================ *)
(** ** The batch of fragments *)

Lemma convert_items_app (a b : list item) :
  forall k : nat,
    convert_items k (a ++ b)%list
    = ((fst (convert_items k a)
        ++ fst (convert_items (snd (convert_items k a)) b))%list,
       snd (convert_items (snd (convert_items k a)) b)).
Proof.
  induction a as [|it r IH]; intros k; simpl.
  - now destruct (convert_items k b).
  - destruct (convert_item k it) as [ot k1]. rewrite IH.
    destruct (convert_items k1 r) as [ts k2]. simpl.
    destruct (convert_items k2 b) as [tb k3]. simpl. now destruct ot.
Qed.

Lemma convert_item_not_a_dict (k : nat) (it : item) :
  not_a_dict it = true -> convert_item k it = (None, k).
Proof.
  destruct it as [t|[]]; simpl; intros H; try reflexivity; discriminate.
Qed.

(** An element that is not a dictionary does not stop the batch: the
    elements before and after it are converted as if it were not
    there, and no clock reading is spent on it. *)
Theorem element_without_get_is_skipped
  (k : nat) (a b : list item) (it : item) :
  not_a_dict it = true ->
  convert_items k (a ++ it :: b)%list = convert_items k (a ++ b)%list.
Proof.
  intros Hit. rewrite !convert_items_app. cbn [convert_items].
  rewrite (convert_item_not_a_dict _ _ Hit).
  now destruct (convert_items (snd (convert_items k a)) b).
Qed.

Lemma required_str_missing (key : string) (data : list (string * fval)) :
  dict_get key data = None -> required_str key data = None.
Proof. unfold required_str. now intros ->. Qed.

Lemma validate_without_title (data : list (string * fval)) :
  dict_get "title" data = None -> validate data = None.
Proof.
  intros H. unfold validate. rewrite (required_str_missing _ _ H).
  now destruct (optional_int "id" data).
Qed.

(** A dictionary without a title gives no task, and the elements after
    it are still converted. *)
Theorem fragment_without_title_is_dropped
  (k : nat) (d : list (string * json)) (rest : list item) :
  dict_get "title" d = None ->
  fst (convert_item k (IJson (JDict d))) = None
  /\ fst (convert_items k (IJson (JDict d) :: rest))
     = fst (convert_items (snd (convert_item k (IJson (JDict d)))) rest).
Proof.
  intros Htitle.
  assert (Hnone : fst (convert_item k (IJson (JDict d))) = None).
  { simpl. unfold Task_init.
    assert (Hget : dict_get "title" (normalize d) = None)
      by (rewrite normalize_get, Htitle by discriminate; reflexivity).
    destruct (dict_has "self" (normalize d)); [reflexivity|].
    destruct (dict_has "created_at" (normalize d)); simpl.
    - now apply validate_without_title.
    - apply validate_without_title.
      now rewrite dict_get_set_other by discriminate. }
  split; [exact Hnone|]. cbn [convert_items].
  destruct (convert_item k (IJson (JDict d))) as [ot k1]. simpl in *.
  subst ot. now destruct (convert_items k1 rest).
Qed.

Lemma convert_items_no_dict (items : list item) (k : nat) :
  Forall (fun it => not_a_dict it = true) items ->
  convert_items k items = ([], k).
Proof.
  induction 1 as [|it r Hit _ IH]; simpl; [reflexivity|].
  now rewrite (convert_item_not_a_dict _ _ Hit), IH.
Qed.

Lemma iterate_no_fragments (p : payload) (store_tasks : list Task) :
  no_fragments p = true ->
  exists items : list item,
    iterate p store_tasks = inr items
    /\ Forall (fun it => not_a_dict it = true) items.
Proof.
  destruct p as [|l|j]; simpl.
  - intros _. eexists. split; [reflexivity|].
    apply Forall_forall. intros it Hit. apply in_map_iff in Hit.
    now destruct Hit as (t & <- & _).
  - intros _. eexists. split; [reflexivity|].
    apply Forall_forall. intros it Hit. apply in_map_iff in Hit.
    now destruct Hit as (t & <- & _).
  - destruct j; try discriminate; intros _; eexists;
      (split; [reflexivity|]); apply Forall_forall; intros it Hit;
      apply in_map_iff in Hit; now destruct Hit as (x & <- & _).
Qed.

(** A successful result whose [tasks] entry holds no dictionary (the
    list the interpreter was given, as when the reply of the model has
    no [tasks] key; a string; a JSON object) empties the store: the
    orchestrator reports success with the message of the result, no
    task, and the counter as it was. *)
Theorem result_without_fragments_empties_store
  (r : result) (k : nat) (command : string) (tm : TaskManager) :
  r_success r = true ->
  no_fragments (r_tasks r) = true ->
  process_result r k command tm
  = (mkResponse true (r_message r) [], mkTaskManager [] (next_id tm), k).
Proof.
  intros Hs Hp. unfold process_result. rewrite Hs. cbn [negb]. rewrite Hs.
  unfold update_tasks_from_llm.
  destruct (iterate_no_fragments _ (tasks tm) Hp) as (items & -> & Hitems).
  now rewrite (convert_items_no_dict _ k Hitems).
Qed.

(* ================================================================ *)
(** ** What the orchestrator keeps *)

(** A command never moves the counter back, and never leaves a task
    without an id in a store that had none. *)
Theorem process_command_keeps_counter_and_ids
  (http : http_outcome) (k : nat) (command : string) (tm : TaskManager) :
  (next_id tm <= next_id (store_of (process_command http k command tm)))%Z
  /\ (Forall (fun t => has_id t = true) (tasks tm) ->
      Forall (fun t => has_id t = true)
             (tasks (store_of (process_command http k command tm)))).
Proof.
  unfold process_command.
  destruct (r_success (llm_process_command http)) eqn:Hs.
  - unfold process_result, store_of. rewrite Hs. cbn [negb]. rewrite Hs.
    destruct (update_tasks_from_llm k (r_tasks (llm_process_command http)) tm)
      as [e|[tm' k']] eqn:E; cbn [fst snd].
    + split; [lia|auto].
    + split.
      * eapply update_tasks_from_llm_next; eassumption.
      * intros _. eapply update_tasks_from_llm_has_id; eassumption.
  - rewrite process_result_after_failure by assumption.
    unfold store_of. simpl. split; [lia|constructor].
Qed.

(* ================================================================ *)
(** ** The command as the keyword interpreter reads it *)

Lemma isspace_printable (c : char) :
  (33 <= c <= 132)%N -> PyStr.isspace c = false.
Proof.
  intros H. unfold PyStr.isspace, PyStr.white_space. cbn [existsb].
  repeat match goal with
         | |- context [Char.eqb c ?k] =>
             destruct (char_eqb_spec c k) as [->|_]; [lia|]
         end.
  reflexivity.
Qed.

Lemma isspace_lower_char (c : char) :
  PyStr.isspace (PyStr.lower_char c) = PyStr.isspace c.
Proof.
  unfold PyStr.lower_char, PyStr.is_upper.
  destruct (N.leb_spec 65 c), (N.leb_spec c 90); cbn [andb];
    try reflexivity.
  rewrite !isspace_printable by lia. reflexivity.
Qed.

Lemma lower_char_idem (c : char) :
  PyStr.lower_char (PyStr.lower_char c) = PyStr.lower_char c.
Proof.
  unfold PyStr.lower_char, PyStr.is_upper.
  destruct (N.leb_spec 65 c), (N.leb_spec c 90); cbn [andb];
    try destruct (N.leb_spec 65 c); try destruct (N.leb_spec c 90);
    cbn [andb]; try reflexivity; try lia.
  destruct (N.leb_spec (c + 32) 90); [lia|].
  now rewrite andb_false_r.
Qed.

Lemma lower_idem (s : string) :
  PyStr.lower_ascii (PyStr.lower_ascii s) = PyStr.lower_ascii s.
Proof.
  induction s as [|c r IH]; simpl; [reflexivity|].
  now rewrite lower_char_idem, IH.
Qed.

Lemma lower_lstrip (s : string) :
  PyStr.lower_ascii (PyStr.lstrip s) = PyStr.lstrip (PyStr.lower_ascii s).
Proof.
  induction s as [|c r IH]; simpl; [reflexivity|].
  rewrite isspace_lower_char. now destruct (PyStr.isspace c).
Qed.

Lemma lower_rstrip (s : string) :
  PyStr.lower_ascii (PyStr.rstrip s) = PyStr.rstrip (PyStr.lower_ascii s).
Proof.
  induction s as [|c r IH]; simpl; [reflexivity|].
  rewrite <- IH, isspace_lower_char.
  destruct (PyStr.rstrip r); simpl; [|reflexivity].
  now destruct (PyStr.isspace c).
Qed.

Lemma lower_strip (s : string) :
  PyStr.lower_ascii (PyStr.strip s) = PyStr.strip (PyStr.lower_ascii s).
Proof. unfold PyStr.strip. now rewrite lower_rstrip, lower_lstrip. Qed.

Lemma lstrip_head (s : string) :
  PyStr.lstrip s = ""
  \/ exists (c : char) (r : string),
       PyStr.lstrip s = String c r /\ PyStr.isspace c = false.
Proof.
  induction s as [|c r IH]; simpl; [now left|].
  destruct (PyStr.isspace c) eqn:Hc; [exact IH|].
  right. now exists c, r.
Qed.

Lemma lstrip_rstrip_clean (c : char) (r : string) :
  PyStr.isspace c = false ->
  PyStr.lstrip (PyStr.rstrip (String c r)) = PyStr.rstrip (String c r).
Proof.
  intros Hc. cbn [PyStr.rstrip].
  destruct (PyStr.rstrip r); rewrite ?Hc; cbn [PyStr.lstrip];
    now rewrite Hc.
Qed.

Lemma strip_idem (s : string) : PyStr.strip (PyStr.strip s) = PyStr.strip s.
Proof.
  unfold PyStr.strip.
  destruct (lstrip_head s) as [->|(c & r & -> & Hc)]; [reflexivity|].
  now rewrite (lstrip_rstrip_clean _ r Hc), rstrip_idem.
Qed.

(** The keyword interpreter reads the command without regard to case
    and to the white space around it: it does on a command what it
    does on the command in lower case and stripped. Two facts of
    [str.lower] are used: lowering twice is lowering once, and
    lowering goes through [strip]. *)
Theorem fallback_process_reads_normalized_command
  (k : nat) (command : string) (tasks : list Task) :
  (forall s, str_lower (str_lower s) = str_lower s) ->
  (forall s, str_lower (PyStr.strip s) = PyStr.strip (str_lower s)) ->
  fallback_process k command tasks
  = fallback_process k (PyStr.strip (str_lower command)) tasks.
Proof.
  intros Hidem Hstrip. unfold fallback_process.
  now rewrite Hstrip, Hidem, strip_idem.
Qed.

(* ================================================================ *)
(** ** Sorting twice *)

Lemma sorted_of_sorted {A : Type} (key : A -> nat) (l : list A) :
  StronglySorted (key_le key) l -> sorted key l = l.
Proof.
  induction 1 as [|x l Hl IH Hall]; simpl; [reflexivity|].
  rewrite IH. destruct l as [|y r]; [reflexivity|]. simpl.
  inversion Hall as [|? ? Hxy _]; subst. unfold key_le in Hxy.
  apply Nat.leb_le in Hxy. now rewrite Hxy.
Qed.

(** Prioritizing is idempotent: on a command that takes the PRIORITIZE
    branch, the list the keyword interpreter returns comes back
    unchanged when the interpreter is run on it again. *)
Theorem fallback_prioritize_twice
  (k : nat) (command : string) (tasks : list Task) :
  let c := PyStr.strip (str_lower command) in
  PyStr.contains "prioritize" c || PyStr.contains "sort" c = true ->
  PyStr.contains "add" c || PyStr.contains "create" c = false ->
  PyStr.contains "list" c = false ->
  exists l : list Task,
    r_tasks (fst (fst (fallback_process k command tasks))) = PTasks l
    /\ List.length l = List.length tasks
    /\ r_tasks (fst (fst (fallback_process k command l))) = PTasks l.
Proof.
  intros c Hsort Hadd Hlist. exists (sorted sort_key tasks).
  unfold fallback_process. fold c. rewrite Hadd, Hlist, Hsort. simpl.
  split; [reflexivity|]. split.
  - symmetry. apply Permutation_length, sorted_perm.
  - now rewrite (sorted_of_sorted _ _ (sorted_sorted sort_key tasks)).
Qed.

(* ================================================================ *)
(** ** Tags given as one string *)

Lemma has_char_lstrip (c : char) (s : string) :
  Spec.has_char c s = false -> Spec.has_char c (PyStr.lstrip s) = false.
Proof.
  induction s as [|x r IH]; simpl; [auto|].
  destruct (PyStr.isspace x); [|auto].
  intros H. apply orb_false_elim in H. now apply IH.
Qed.

Lemma has_char_rstrip (c : char) (s : string) :
  Spec.has_char c s = false -> Spec.has_char c (PyStr.rstrip s) = false.
Proof.
  induction s as [|x r IH]; simpl; [auto|].
  intros H. apply orb_false_elim in H. destruct H as [Hx Hr].
  specialize (IH Hr). destruct (PyStr.rstrip r).
  - destruct (PyStr.isspace x); simpl; [reflexivity|now rewrite Hx].
  - cbn [Spec.has_char] in *. now rewrite Hx, IH.
Qed.

Lemma has_char_strip (c : char) (s : string) :
  Spec.has_char c s = false -> Spec.has_char c (PyStr.strip s) = false.
Proof. intros H. now apply has_char_rstrip, has_char_lstrip. Qed.

Lemma split_comma_not_nil (s : string) : PyStr.split_comma s <> [].
Proof.
  induction s as [|c r IH]; simpl; [discriminate|].
  destruct (Char.eqb c comma); [discriminate|].
  now destruct (PyStr.split_comma r).
Qed.

(** [split] and [join] are a round trip, and no piece holds a comma. *)
Lemma split_comma_join (s : string) :
  join_comma (PyStr.split_comma s) = s
  /\ Forall (fun p => Spec.has_char comma p = false) (PyStr.split_comma s).
Proof.
  induction s as [|c r [IHj IHc]]; simpl; [now repeat constructor|].
  pose proof (split_comma_not_nil r) as Hnil.
  destruct (char_eqb_spec c comma) as [->|Hne].
  - split; [|now constructor].
    destruct (PyStr.split_comma r) as [|p ps]; [now destruct Hnil|].
    cbn [join_comma]. simpl. now rewrite <- IHj.
  - destruct (PyStr.split_comma r) as [|p ps]; [now destruct Hnil|].
    split.
    + rewrite <- IHj. destruct ps; reflexivity.
    + inversion IHc; subst. constructor; [|assumption]. simpl.
      destruct (char_eqb_spec c comma); [contradiction|assumption].
Qed.

Lemma all_str_strict (l : list string) :
  (forall s, coerce_str (JStr s) = Some s) ->
  all_str (map JStr l) = Some l.
Proof.
  intros Hstr. induction l as [|x r IH]; simpl; [reflexivity|].
  now rewrite Hstr, IH.
Qed.

Lemma Task_init_tags (k k' : nat) (data : list (string * fval)) (t : Task) :
  Task_init k data = (Some t, k') -> tags_field data = Some (tags t).
Proof.
  unfold Task_init. destruct (dict_has "self" data); [discriminate|].
  destruct (dict_has "created_at" data); intros H; injection H as Hv _;
    apply validate_fields in Hv;
    destruct Hv as (_ & _ & _ & _ & _ & _ & Ht & _).
  - exact Ht.
  - unfold tags_field in *.
    now rewrite dict_get_set_other in Ht by discriminate.
Qed.

Lemma normalize_tags (d : list (string * json)) :
  dict_get "tags" (normalize d)
  = match dict_get "tags" d with
    | Some (JStr s) =>
        Some (FJson (JList (map (fun tag => JStr (PyStr.strip tag))
                                (PyStr.split_comma s))))
    | Some j => Some (FJson j)
    | None => None
    end.
Proof.
  unfold normalize.
  rewrite clean_status_get, clean_priority_get by discriminate.
  unfold clean_tags. rewrite dict_get_lift.
  destruct (dict_get "tags" d) as [j|] eqn:E; cbn [option_map].
  - destruct j; try (rewrite dict_get_lift, E; reflexivity).
    apply dict_get_set_same.
  - now rewrite dict_get_lift, E.
Qed.

(** Tags that arrive as one string are cut at the commas and each piece
    is stripped: the task built from the fragment has one tag per
    piece, in order; no tag holds a comma or has white space around
    it; joined with commas, the unstripped pieces give the string
    back. Tags that arrive as a list are validated one by one and kept
    in order. *)
Theorem string_tags_are_split
  (k k' : nat) (d : list (string * json)) (t : Task) :
  (forall s, coerce_str (JStr s) = Some s) ->
  convert_item k (IJson (JDict d)) = (Some t, k') ->
  (forall s : string,
      dict_get "tags" d = Some (JStr s) ->
      tags t = map PyStr.strip (PyStr.split_comma s)
      /\ join_comma (PyStr.split_comma s) = s
      /\ Forall (fun tag => Spec.has_char comma tag = false
                            /\ PyStr.strip tag = tag) (tags t))
  /\ (forall l : list json,
        dict_get "tags" d = Some (JList l) -> all_str l = Some (tags t)).
Proof.
  intros Hstr Hconv. simpl in Hconv. apply Task_init_tags in Hconv.
  unfold tags_field in Hconv. rewrite normalize_tags in Hconv.
  split.
  - intros s Hs. rewrite Hs in Hconv.
    rewrite <- map_map, (all_str_strict _ Hstr) in Hconv.
    injection Hconv as <-.
    destruct (split_comma_join s) as [Hjoin Hcomma].
    repeat split; [assumption|].
    apply Forall_forall. intros tag Htag. apply in_map_iff in Htag.
    destruct Htag as (p & <- & Hp). rewrite Forall_forall in Hcomma.
    split; [now apply has_char_strip, Hcomma|apply strip_idem].
  - intros l Hl. now rewrite Hl in Hconv.
Qed.

(* ================================================================ *)
(** ** One object in prose *)

Lemma any_then_close_none (s : string) :
  Spec.has_char rbrace s = false -> Extract.any_then_close s = None.
Proof.
  intros H. pose proof (any_then_close_last s) as Hl.
  destruct (Extract.any_then_close s) as [m|]; [|reflexivity].
  destruct Hl as (mid & post & _ & -> & _).
  rewrite !has_char_app in H. simpl in H. rewrite orb_true_r in H.
  discriminate.
Qed.

Lemma any_then_close_app (post : string) :
  Spec.has_char rbrace post = false ->
  forall a : string,
    Extract.any_then_close (a ++ "}" ++ post) = Some (a ++ "}").
Proof.
  intros Hpost. induction a as [|c a IH].
  - change ("" ++ "}" ++ post) with (String rbrace post).
    cbn [Extract.any_then_close]. now rewrite (any_then_close_none _ Hpost).
  - change (String c a ++ "}" ++ post) with (String c (a ++ "}" ++ post)).
    cbn [Extract.any_then_close]. now rewrite IH.
Qed.

Lemma search_fenced_no_backtick (s : string) :
  Spec.has_char backquote s = false -> Extract.search_fenced s = None.
Proof.
  induction s as [|c r IH]; cbn [Extract.search_fenced]; [reflexivity|].
  cbn [Spec.has_char]. intros H. apply orb_false_elim in H.
  destruct H as [Hc Hr]. rewrite (IH Hr).
  unfold Extract.fence_json. cbn [PyStr.match_literal].
  change backquote with 96%N in Hc. rewrite char_eqb_sym, Hc. reflexivity.
Qed.

(** A reply without back quotes that holds one object in prose: where
    no opening brace stands before the object and no closing brace
    after it, the object is what is extracted, prose removed. In
    particular a reply that is just the object is extracted whole. *)
Theorem single_object_is_extracted (pre mid post : string) :
  Spec.has_char backquote (pre ++ "{" ++ mid ++ "}" ++ post) = false ->
  Spec.has_char lbrace pre = false ->
  Spec.has_char rbrace post = false ->
  Extract.extract_json (pre ++ "{" ++ mid ++ "}" ++ post)
  = Some ("{" ++ mid ++ "}").
Proof.
  intros Hquote Hpre Hpost. unfold Extract.extract_json.
  rewrite (search_fenced_no_backtick _ Hquote). clear Hquote.
  induction pre as [|c pre IH].
  - change ("" ++ "{" ++ mid ++ "}" ++ post)
      with (String lbrace (mid ++ "}" ++ post)).
    cbn [Extract.search_braces]. rewrite char_eqb_refl.
    now rewrite (any_then_close_app _ Hpost).
  - change (String c pre ++ "{" ++ mid ++ "}" ++ post)
      with (String c (pre ++ "{" ++ mid ++ "}" ++ post)).
    cbn [Extract.search_braces]. cbn [Spec.has_char] in Hpre.
    apply orb_false_elim in Hpre. destruct Hpre as [Hc Hpre].
    rewrite Hc. now apply IH.
Qed.

(* ================================================================ *)
(** ** What an update overwrites *)

(** [update_task] stores the new task in place of the old one: every
    field but the id comes from the new task, also [created_at] when
    the new task has a non-empty one; an empty [created_at] counts as
    unset and the old one is kept. *)
Theorem update_task_overwrites_fields
  (tm : TaskManager) (task_id : Z) (t : Task)
  (l1 : list Task) (old : Task) (l2 : list Task) :
  tasks tm = (l1 ++ old :: l2)%list ->
  (forall x, In x l1 -> id x <> Some task_id) ->
  id old = Some task_id ->
  exists u : Task,
    update_task task_id t tm
    = (Some u, mkTaskManager (l1 ++ u :: l2)%list (next_id tm))
    /\ id u = Some task_id
    /\ title u = title t /\ description u = description t
    /\ priority u = priority t /\ due_date u = due_date t
    /\ status u = status t /\ tags u = tags t
    /\ created_at u
       = match created_at t with
         | Some EmptyString | None => created_at old
         | Some c => Some c
         end.
Proof.
  intros Htm Hl1 Hold. exists (prepare_update task_id t old).
  unfold update_task. rewrite Htm, update_task_in_found by assumption.
  split; [reflexivity|]. unfold prepare_update, created_at_set.
  cbn [created_at set_id].
  destruct (created_at t) as [[|c s]|] eqn:Hc; cbn [PyStr.truthy];
    cbn [id title description priority due_date status tags created_at
         set_id set_created_at]; rewrite ?Hc; repeat split.
Qed.

End Pipeline.

(* ================================================================== *)
(** ** The theorems at concrete inputs *)

(** C5 on the groceries task: an update of id 1 by a task without
    [created_at], and an update of the unknown id 7. *)
Lemma update_task_keeps_id_and_created_at_witness :
  (exists u : Task,
      update_task 1 (untitled "Buy food" HIGH) (mkTaskManager [groceries] 2)
      = (Some u, mkTaskManager [u] 2)
      /\ id u = Some 1%Z
      /\ created_at u = Some "2024-05-01T09:00:00")
  /\ update_task 7 (untitled "Buy food" HIGH) (mkTaskManager [groceries] 2)
     = (None, mkTaskManager [groceries] 2).
Proof.
  destruct (update_task_keeps_id_and_created_at
              (mkTaskManager [groceries] 2) 1 (untitled "Buy food" HIGH))
    as [Hfound _].
  destruct (update_task_keeps_id_and_created_at
              (mkTaskManager [groceries] 2) 7 (untitled "Buy food" HIGH))
    as [_ Hmissing].
  split.
  - apply (Hfound [] groceries []); try reflexivity.
    intros x [].
  - apply Hmissing. intros x [<-|[]]. discriminate.
Defined.

(** C3 as stated fails: the store holds the groceries task, created on
    2024-05-01; a replacement by the fragment [{"id": 1, "title": "Buy
    groceries"}] commits a task of id 1 whose [created_at] is the
    reading of the clock, not the original one. *)
Lemma replacement_restamps_created_at :
  ~ replacement_keeps_created_at strict_int strict_str no_repr
      PyStr.lower_ascii tick_clock
      0 (PJson (JList [groceries_fragment])) (mkTaskManager [groceries] 2).
Proof.
  intros H.
  specialize (H (mkTaskManager
                   [mkTask (Some 1%Z) "Buy groceries" None MEDIUM None TODO []
                           (Some "T0")] 2)
                1 groceries
                (mkTask (Some 1%Z) "Buy groceries" None MEDIUM None TODO []
                        (Some "T0"))
                1%Z eq_refl (or_introl eq_refl) (or_introl eq_refl)
                eq_refl eq_refl).
  discriminate H.
Qed.

(** C3, amended, on the groceries task: the update keeps the date, the
    replacement by a fragment without [created_at] takes the clock. *)
Lemma created_at_on_update_and_replacement_witness :
  (exists u : Task,
      update_task 1 (untitled "Buy food" HIGH) (mkTaskManager [groceries] 2)
      = (Some u, mkTaskManager [u] 2)
      /\ created_at u = Some "2024-05-01T09:00:00")
  /\ (exists (items : list item) (d : list (string * json)) (t : Task)
             (j j' : nat),
         iterate (PJson (JList [groceries_fragment])) [groceries] = inr items
         /\ In (IJson (JDict d)) items
         /\ 0 <= j /\ j' <= 1
         /\ Task_init strict_int strict_str tick_clock j
                      (normalize no_repr PyStr.lower_ascii d)
            = (Some t, j')
         /\ (mkTask (Some 1%Z) "Buy groceries" None MEDIUM None TODO []
                    (Some "T0") = t
             \/ (id t = None
                 /\ exists i : Z,
                      mkTask (Some 1%Z) "Buy groceries" None MEDIUM None TODO
                             [] (Some "T0") = set_id t i))
         /\ match dict_get "created_at" d with
            | Some (JStr s) => Some "T0" = Some s
            | Some _ =>
                optional_str strict_str "created_at" (lift_dict d)
                = Some (Some "T0")
            | None => Some "T0" = Some (tick_clock j)
            end).
Proof.
  destruct (created_at_on_update_and_replacement
              strict_int strict_str no_repr PyStr.lower_ascii tick_clock
              (fun s => eq_refl)) as [Hupdate Hreplace].
  split.
  - apply (Hupdate (mkTaskManager [groceries] 2) 1%Z (untitled "Buy food" HIGH)
                   [] groceries []); try reflexivity.
    intros x [].
  - apply (Hreplace 0 (PJson (JList [groceries_fragment]))
                    (mkTaskManager [groceries] 2)
                    (mkTaskManager
                       [mkTask (Some 1%Z) "Buy groceries" None MEDIUM None TODO
                               [] (Some "T0")] 2)
                    1
                    (mkTask (Some 1%Z) "Buy groceries" None MEDIUM None TODO []
                            (Some "T0"))).
    + reflexivity.
    + now left.
Defined.

(** C4 as stated fails: a replacement commits the fragment
    [{"id": 1, "title": "Buy groceries"}] with the id it carries and
    leaves the counter at 1; the store is emptied; the next [add]
    assigns id 1 again. *)
Lemma retired_id_is_reused :
  ~ retired_ids_never_reused strict_int strict_str no_repr
      PyStr.lower_ascii tick_clock.
Proof.
  intros H.
  apply (H 0 [OpReplace (PJson (JList [groceries_fragment]))] []
           (untitled "Call mom" MEDIUM) 1%Z).
  - reflexivity.
  - now left.
  - reflexivity.
Qed.

(** C4, amended, on a run with three [add]s, a deletion and two
    replacements, one of them by the empty list. *)
Lemma store_assigned_ids_increase_witness :
  let ops := [OpAdd (untitled "Write proposal" HIGH);
              OpReplace (PJson (JList [groceries_fragment]));
              OpDelete 1;
              OpAdd (untitled "Call mom" MEDIUM);
              OpReplace (PJson (JList []));
              OpAdd (untitled "Pay rent" URGENT)] in
  let r := run strict_int strict_str no_repr
      PyStr.lower_ascii tick_clock 0 ops init in
  assigned r = [1; 2; 3]%Z
  /\ StronglySorted Z.lt (assigned r)
  /\ (forall i : Z, In i (assigned r) -> (1 <= i < 4)%Z)
  /\ (forall i : Z, (i < 1)%Z -> ~ In i (assigned r)).
Proof.
  intros ops r.
  destruct (store_assigned_ids_increase
              strict_int strict_str no_repr
                  PyStr.lower_ascii tick_clock 0 ops init)
    as (Hsorted & _ & Hbounds & Hbelow & _).
  split; [reflexivity|]. split; [exact Hsorted|].
  split; [exact Hbounds|exact Hbelow].
Defined.

(** C9 on a fragment with the priority "Critical" and the status
    "In-Progress". *)
Lemma normalization_follows_synonym_tables_witness :
  let d := [("title", JStr "Plan the week"); ("priority", JStr "Critical");
            ("status", JStr "In-Progress")] in
  priority_field (normalize no_repr PyStr.lower_ascii d) = Some URGENT
  /\ status_field (normalize no_repr PyStr.lower_ascii d) = Some IN_PROGRESS
  /\ forall (k' : nat) (t : Task),
      convert_item strict_int strict_str no_repr
          PyStr.lower_ascii tick_clock 0 (IJson (JDict d))
      = (Some t, k') ->
      priority t = URGENT /\ status t = IN_PROGRESS.
Proof.
  intros d.
  destruct (normalization_follows_synonym_tables
              strict_int strict_str no_repr PyStr.lower_ascii tick_clock d)
    as (Hpriority & Hstatus & Htask).
  split; [|split].
  - apply (Hpriority (JStr "Critical")). reflexivity.
  - apply (Hstatus (JStr "In-Progress")). reflexivity.
  - intros k' t Hconv. destruct (Htask 0 k' t Hconv) as [Hp Hs]. split.
    + apply (Hp (JStr "Critical")). reflexivity.
    + apply (Hs (JStr "In-Progress")). reflexivity.
Defined.

(** C8 as stated fails: "sort my list" contains "sort", and also
    "list", which is tested first; the tasks come back as they were,
    LOW before URGENT. *)
Lemma sort_my_list_does_not_sort :
  ~ prioritize_sorts PyStr.lower_ascii tick_clock 0 "sort my list"
      [numbered 1 "Water plants" LOW; numbered 2 "Pay rent" URGENT].
Proof.
  intros H. destruct H as (l & Hl & _ & Hsorted & _); [reflexivity|].
  injection Hl as <-.
  inversion Hsorted as [|a r _ Hall]; subst.
  inversion Hall as [|b r' Hle _]; subst. simpl in Hle. lia.
Qed.

(** C8, amended, on the example of the specification: the priorities
    LOW, URGENT, MEDIUM come back as URGENT, MEDIUM, LOW. *)
Lemma fallback_prioritize_sorts_witness :
  exists l : list Task,
    fallback_process PyStr.lower_ascii tick_clock 0 "prioritize my tasks"
      [numbered 1 "Water plants" LOW; numbered 2 "Pay rent" URGENT;
       numbered 3 "Call mom" MEDIUM]
    = (ok_result "Tasks sorted by priority" (PTasks l) "PRIORITIZE",
       [numbered 1 "Water plants" LOW; numbered 2 "Pay rent" URGENT;
        numbered 3 "Call mom" MEDIUM], 0)
    /\ stably_prioritized
         [numbered 1 "Water plants" LOW; numbered 2 "Pay rent" URGENT;
          numbered 3 "Call mom" MEDIUM] l
    /\ map priority l = [URGENT; MEDIUM; LOW].
Proof.
  destruct (fallback_prioritize_sorts
      PyStr.lower_ascii tick_clock 0 "prioritize my tasks"
              [numbered 1 "Water plants" LOW; numbered 2 "Pay rent" URGENT;
               numbered 3 "Call mom" MEDIUM] eq_refl eq_refl eq_refl)
    as (l & Hrun & Hsorted).
  exists l. split; [exact Hrun|]. split; [exact Hsorted|].
  vm_compute in Hrun. injection Hrun as <-. reflexivity.
Defined.

(** C7 as stated fails: on "add buy milk" the caller's list, empty
    before the call, holds the new task after it. *)
Lemma fallback_add_mutates_caller_list :
  ~ fallback_leaves_caller_list
      PyStr.lower_ascii tick_clock 0 "add buy milk" [].
Proof. unfold fallback_leaves_caller_list. simpl. discriminate. Qed.

(** C7, amended: "Add  Buy milk " appends to the list it is given;
    "show everything" leaves it alone. *)
Lemma fallback_add_appends_in_place_witness :
  fallback_process PyStr.lower_ascii tick_clock 0 "Add  Buy milk " [groceries]
  = (ok_result "Added task: buy milk" PStore "ADD",
     [groceries;
      mkTask (Some 2%Z) "buy milk" None MEDIUM None TODO [] (Some "T0")], 1)
  /\ snd (fst (fallback_process
      PyStr.lower_ascii tick_clock 0 "show everything" [groceries]))
     = [groceries].
Proof.
  destruct (fallback_add_appends_in_place
      PyStr.lower_ascii tick_clock 0 "Add  Buy milk "
              [groceries]) as [Hadd _].
  destruct (fallback_add_appends_in_place
      PyStr.lower_ascii tick_clock 0 "show everything"
              [groceries]) as [_ Hother].
  split.
  - apply Hadd.
    + reflexivity.
    + vm_compute. discriminate.
    + vm_compute. discriminate.
  - apply Hother. reflexivity.
Defined.

(** C6 as stated fails: without a fenced block, a reply with two spans
    in braces is not cut at the end of the first span; the extracted
    text runs to the last closing brace. *)
Lemma extraction_runs_to_last_brace :
  ~ takes_first_top_level_span two_spans_reply.
Proof.
  intros H. specialize (H eq_refl). vm_compute in H. discriminate H.
Qed.

(** C6, amended, on a reply with a fenced block, on one with two spans
    in braces, and on one where no closing brace follows an opening
    one. *)
Lemma extraction_order_witness :
  Extract.extract_json "Sure: ```json  {a} x  ``` and {b}" = Some "{a} x"
  /\ (exists pre mid post : string,
         two_spans_reply = pre ++ "{" ++ mid ++ "}" ++ post
         /\ Spec.has_char lbrace pre = false
         /\ Spec.has_char rbrace post = false
         /\ "{" ++ dq ++ "action" ++ dq ++ ": " ++ dq ++ "LIST" ++ dq
            ++ "} (see {notes}"
            = "{" ++ mid ++ "}")
  /\ interpret_response (loads_table []) "no object } here {"
     = mkResult false (JStr "Failed to parse LLM response") PStore None.
Proof.
  split; [|split].
  - destruct (extraction_order (loads_table [])
                "Sure: ```json  {a} x  ``` and {b}") as (_ & Hfenced & _).
    apply (proj1 (Hfenced "{a} x" eq_refl)).
  - destruct (extraction_order (loads_table []) two_spans_reply)
      as (_ & _ & Hbraces).
    exact (Hbraces eq_refl).
  - destruct (extraction_order (loads_table []) "no object } here {")
      as (_ & _ & Hnone).
    exact (proj2 (Hnone eq_refl)).
Defined.

(** C1 at a concrete input: the store holds the groceries task, the
    call to the language model raises, the command is "list". The
    keyword interpreter returns the list with the groceries task; the
    orchestrator answers with an empty list and empties the store. *)
Lemma fallback_commit_drops_every_task_witness :
  fallback_process PyStr.lower_ascii tick_clock 0 "list" [groceries]
  = (ok_result "Here are your tasks" PStore "LIST", [groceries], 0)
  /\ process_command strict_int strict_str no_repr
      PyStr.lower_ascii (loads_table []) tick_clock
       (PostRaised "All connection attempts failed") 0 "list"
       (mkTaskManager [groceries] 2)
     = (mkResponse true (JStr "Here are your tasks") [],
        mkTaskManager [] 2, 0).
Proof.
  split; [reflexivity|].
  apply (fallback_commit_drops_every_task
           strict_int strict_str no_repr
               PyStr.lower_ascii (loads_table []) tick_clock
           (PostRaised "All connection attempts failed") 0 "list"
           (mkTaskManager [groceries] 2)).
  reflexivity.
Defined.


(** C10 on two results that differ in the action tag only, ADD and
    DELETE. *)
Lemma action_tag_is_not_committed_witness :
  process_result strict_int strict_str no_repr PyStr.lower_ascii tick_clock
    (mkResult true (JStr "Done") (PJson (JList [groceries_fragment]))
              (Some (JStr "ADD")))
    0 "add groceries" init
  = process_result strict_int strict_str no_repr PyStr.lower_ascii tick_clock
      (mkResult true (JStr "Done") (PJson (JList [groceries_fragment]))
                (Some (JStr "DELETE")))
      0 "add groceries" init.
Proof.
  apply (action_tag_is_not_committed strict_int strict_str no_repr
      PyStr.lower_ascii tick_clock);
    reflexivity.
Defined.

(* ================================================================== *)
(** ** The examples of the specification *)

(** [{tags: "work, client"}] gives the tags [work] and [client]. *)
Example tags_are_split :
  option_map tags
    (fst (convert_item strict_int strict_str no_repr
        PyStr.lower_ascii tick_clock 0
            (IJson (JDict [("title", JStr "Proposal");
                           ("tags", JStr "work, client")]))))
  = Some ["work"; "client"].
Proof. reflexivity. Qed.

(** [{priority: "unknown-value"}] gives MEDIUM, and the canonical status
    in upper case, which is in neither table, gives TODO. *)
Example unknown_values_default :
  priority_field (normalize no_repr
      PyStr.lower_ascii [("priority", JStr "unknown-value")])
  = Some MEDIUM
  /\ status_field (normalize no_repr
      PyStr.lower_ascii [("status", JStr "IN_PROGRESS")])
     = Some TODO.
Proof. split; reflexivity. Qed.

(** "add buy milk" on an empty list: one task titled "buy milk",
    MEDIUM, TODO, action ADD. *)
Example add_buy_milk :
  fallback_process PyStr.lower_ascii tick_clock 0 "add buy milk" []
  = (ok_result "Added task: buy milk" PStore "ADD",
     [mkTask (Some 1%Z) "buy milk" None MEDIUM None TODO [] (Some "T0")], 1).
Proof. reflexivity. Qed.

(** A reply of the model without any span in braces is a failure
    result, and the orchestrator answers with the message of the
    keyword interpreter. *)
Example reply_without_braces_falls_back :
  let loads := loads_table [("body", JDict [("response", JStr "Sorry.")])] in
  r_success (llm_process_command loads (Responded 200 "body")) = false
  /\ resp_message
       (response_of
          (process_command strict_int strict_str no_repr
              PyStr.lower_ascii loads tick_clock
             (Responded 200 "body") 0 "list" init))
     = JStr "Here are your tasks".
Proof. split; reflexivity. Qed.

(** A reply of the model in a fenced block, with a task list that
    repeats the groceries task and adds a task without an id: the new
    task takes the id of the counter and the reading of the clock. *)
Example reply_with_tasks_is_committed :
  let loads :=
    loads_table
      [("body", JDict [("response", JStr "Here: ```json {reply} ```")]);
       ("{reply}",
        JDict [("action", JStr "ADD"); ("message", JStr "Added");
               ("tasks",
                JList [JDict [("id", JInt 1); ("title", JStr "Buy groceries");
                              ("created_at", JStr "2024-05-01T09:00:00")];
                       JDict [("title", JStr "Call mom");
                              ("priority", JStr "High")]])])] in
  process_command strict_int strict_str no_repr
      PyStr.lower_ascii loads tick_clock
    (Responded 200 "body") 0 "add call mom" (mkTaskManager [groceries] 2)
  = (mkResponse true (JStr "Added")
       [mkTask (Some 1%Z) "Buy groceries" None MEDIUM None TODO []
               (Some "2024-05-01T09:00:00");
        mkTask (Some 2%Z) "Call mom" None HIGH None TODO [] (Some "T0")],
     mkTaskManager
       [mkTask (Some 1%Z) "Buy groceries" None MEDIUM None TODO []
               (Some "2024-05-01T09:00:00");
        mkTask (Some 2%Z) "Call mom" None HIGH None TODO [] (Some "T0")] 3,
     1).
Proof. reflexivity. Qed.

(* ================================================================== *)
(** ** Further properties at concrete inputs *)

(** A store with the groceries task and a second task of id 2. *)
Lemma get_task_finds_first_witness :
  (exists l1 l2 : list Task,
      [groceries; numbered 2 "Pay rent" URGENT]
      = (l1 ++ numbered 2 "Pay rent" URGENT :: l2)%list
      /\ (forall x, In x l1 -> id x <> Some 2%Z)
      /\ id (numbered 2 "Pay rent" URGENT) = Some 2%Z)
  /\ forall x, In x [groceries; numbered 2 "Pay rent" URGENT] ->
               id x <> Some 7%Z.
Proof.
  split.
  - exact (get_task_finds_first 2
             (mkTaskManager [groceries; numbered 2 "Pay rent" URGENT] 3)).
  - exact (get_task_finds_first 7
             (mkTaskManager [groceries; numbered 2 "Pay rent" URGENT] 3)).
Defined.

Lemma delete_task_removes_first_witness :
  delete_task 1 (mkTaskManager [groceries; numbered 2 "Pay rent" URGENT] 3)
  = (true, mkTaskManager [numbered 2 "Pay rent" URGENT] 3)
  /\ delete_task 7 (mkTaskManager [groceries] 2)
     = (false, mkTaskManager [groceries] 2).
Proof.
  split.
  - apply (proj1 (delete_task_removes_first 1
                    (mkTaskManager [groceries; numbered 2 "Pay rent" URGENT] 3))
                 [] groceries [numbered 2 "Pay rent" URGENT]);
      try reflexivity.
    intros x [].
  - apply (proj2 (delete_task_removes_first 7 (mkTaskManager [groceries] 2))).
    intros x [<-|[]]. discriminate.
Defined.

Lemma add_task_then_get_task_witness :
  get_task 2 (snd (add_task (untitled "Call mom" MEDIUM)
                            (mkTaskManager [groceries] 2)))
  = Some (fst (add_task (untitled "Call mom" MEDIUM)
                        (mkTaskManager [groceries] 2))).
Proof.
  apply (add_task_then_get_task (untitled "Call mom" MEDIUM)
           (mkTaskManager [groceries] 2) 2); [reflexivity|].
  intros x [<-|[]]. discriminate.
Defined.

Lemma delete_task_then_get_task_witness :
  get_task 1 (snd (delete_task 1
                     (mkTaskManager
                        [groceries; numbered 2 "Pay rent" URGENT] 3)))
  = None.
Proof.
  apply (delete_task_then_get_task 1
           (mkTaskManager [groceries; numbered 2 "Pay rent" URGENT] 3)).
  repeat constructor; simpl; intuition discriminate.
Defined.

Lemma get_task_of_other_ids_witness :
  let tm := mkTaskManager [groceries; numbered 2 "Pay rent" URGENT] 3 in
  get_task 2 (snd (delete_task 1 tm)) = get_task 2 tm
  /\ get_task 2 (snd (update_task 1 (untitled "Buy food" HIGH) tm))
     = get_task 2 tm.
Proof.
  intros tm.
  destruct (get_task_of_other_ids 1 2 (untitled "Buy food" HIGH) tm)
    as (Hdelete & Hupdate & _); [discriminate|].
  split; assumption.
Defined.

Lemma endpoints_agree_on_404_witness :
  API.get_task 7 (mkTaskManager [groceries] 2)
  = HTTPException 404 "Task not found"
  /\ API.update_task 7 (untitled "Buy food" HIGH) (mkTaskManager [groceries] 2)
     = (HTTPException 404 "Task not found", mkTaskManager [groceries] 2)
  /\ API.delete_task 7 (mkTaskManager [groceries] 2)
     = (HTTPException 404 "Task not found", mkTaskManager [groceries] 2).
Proof.
  destruct (endpoints_agree_on_404 7 (untitled "Buy food" HIGH)
              (mkTaskManager [groceries] 2)) as (Hget & Hput & Hdelete).
  assert (Hnone : forall x, In x [groceries] -> id x <> Some 7%Z)
    by (intros x [<-|[]]; discriminate).
  split; [|split].
  - now apply Hget.
  - now apply Hput.
  - now apply Hdelete.
Defined.

Lemma stored_tasks_keep_ids_witness :
  Forall (fun t => has_id t = true)
    (tasks (store_after
              (run strict_int strict_str no_repr PyStr.lower_ascii tick_clock 0
                 [OpAdd (untitled "Write proposal" HIGH);
                  OpReplace (PJson (JList [groceries_fragment;
                                           JDict [("title", JStr "Call mom")]]));
                  OpUpdate 1 (untitled "Buy food" HIGH);
                  OpDelete 2]
                 init))).
Proof.
  apply (stored_tasks_keep_ids strict_int strict_str no_repr
      PyStr.lower_ascii tick_clock).
  constructor.
Defined.

Lemma element_without_get_is_skipped_witness :
  convert_items strict_int strict_str no_repr PyStr.lower_ascii tick_clock 0
    [IJson groceries_fragment; IJson (JInt 3);
     IJson (JDict [("title", JStr "Call mom")])]
  = convert_items strict_int strict_str no_repr PyStr.lower_ascii tick_clock 0
      [IJson groceries_fragment; IJson (JDict [("title", JStr "Call mom")])].
Proof.
  apply (element_without_get_is_skipped strict_int strict_str no_repr
      PyStr.lower_ascii
           tick_clock 0 [IJson groceries_fragment]
           [IJson (JDict [("title", JStr "Call mom")])] (IJson (JInt 3))).
  reflexivity.
Defined.

Lemma fragment_without_title_is_dropped_witness :
  fst (convert_item strict_int strict_str no_repr PyStr.lower_ascii tick_clock 0
         (IJson (JDict [("priority", JStr "high")]))) = None
  /\ fst (convert_items strict_int strict_str no_repr
      PyStr.lower_ascii tick_clock 0
            [IJson (JDict [("priority", JStr "high")]);
             IJson groceries_fragment])
     = fst (convert_items strict_int strict_str no_repr
         PyStr.lower_ascii tick_clock 1
              [IJson groceries_fragment]).
Proof.
  apply (fragment_without_title_is_dropped strict_int strict_str no_repr
      PyStr.lower_ascii
           tick_clock 0 [("priority", JStr "high")]
           [IJson groceries_fragment]).
  reflexivity.
Defined.

Lemma result_without_fragments_empties_store_witness :
  process_result strict_int strict_str no_repr PyStr.lower_ascii tick_clock
    (mkResult true (JStr "Nothing to do") PStore (Some (JStr "LIST")))
    0 "show my tasks" (mkTaskManager [groceries] 2)
  = (mkResponse true (JStr "Nothing to do") [], mkTaskManager [] 2, 0).
Proof.
  apply (result_without_fragments_empties_store
           strict_int strict_str no_repr
               PyStr.lower_ascii tick_clock); reflexivity.
Defined.

Lemma process_command_keeps_counter_and_ids_witness :
  let out :=
    process_command strict_int strict_str no_repr PyStr.lower_ascii
      (loads_table number_reply_table) tick_clock
      (Responded 200 "body") 0 "remove everything"
      (mkTaskManager [groceries] 2) in
  (2 <= next_id (store_of out))%Z
  /\ Forall (fun t => has_id t = true) (tasks (store_of out)).
Proof.
  intros out.
  destruct (process_command_keeps_counter_and_ids
              strict_int strict_str no_repr
                  PyStr.lower_ascii (loads_table number_reply_table)
              tick_clock (Responded 200 "body") 0 "remove everything"
              (mkTaskManager [groceries] 2)) as [Hcounter Hids].
  split; [exact Hcounter|]. apply Hids. repeat constructor.
Defined.

Lemma fallback_process_reads_normalized_command_witness :
  fallback_process PyStr.lower_ascii tick_clock 0 "  ADD Buy Milk " [groceries]
  = fallback_process PyStr.lower_ascii tick_clock 0
      (PyStr.strip (PyStr.lower_ascii "  ADD Buy Milk ")) [groceries].
Proof.
  apply (fallback_process_reads_normalized_command
           PyStr.lower_ascii tick_clock 0 "  ADD Buy Milk " [groceries]).
  - exact lower_idem.
  - exact lower_strip.
Defined.

Lemma fallback_prioritize_twice_witness :
  exists l : list Task,
    r_tasks (fst (fst (fallback_process
        PyStr.lower_ascii tick_clock 0 "Sort them"
                         [numbered 1 "Water plants" LOW;
                          numbered 2 "Pay rent" URGENT]))) = PTasks l
    /\ List.length l = 2
    /\ r_tasks (fst (fst (fallback_process
        PyStr.lower_ascii tick_clock 0 "Sort them" l)))
       = PTasks l.
Proof.
  apply (fallback_prioritize_twice PyStr.lower_ascii tick_clock 0 "Sort them"
           [numbered 1 "Water plants" LOW; numbered 2 "Pay rent" URGENT]);
    reflexivity.
Defined.

Lemma string_tags_are_split_witness :
  let t := mkTask None "Proposal" None MEDIUM None TODO
                  ["work"; "client"; ""] (Some "T0") in
  convert_item strict_int strict_str no_repr PyStr.lower_ascii tick_clock 0
    (IJson (JDict [("title", JStr "Proposal");
                   ("tags", JStr "work, client ,")]))
  = (Some t, 1)
  /\ tags t = map PyStr.strip (PyStr.split_comma "work, client ,")
  /\ join_comma (PyStr.split_comma "work, client ,") = "work, client ,"
  /\ Forall (fun tag => Spec.has_char comma tag = false
                        /\ PyStr.strip tag = tag) (tags t).
Proof.
  intros t. split; [reflexivity|].
  apply (proj1 (string_tags_are_split strict_int strict_str no_repr
      PyStr.lower_ascii tick_clock
                  0 1 [("title", JStr "Proposal");
                       ("tags", JStr "work, client ,")] t
                  (fun s => eq_refl) eq_refl)
               "work, client ,").
  reflexivity.
Defined.

Lemma single_object_is_extracted_witness :
  Extract.extract_json "Here it is: {a {b} c} Anything else?"
  = Some "{a {b} c}".
Proof.
  apply (single_object_is_extracted "Here it is: " "a {b} c"
           " Anything else?"); reflexivity.
Defined.

Lemma update_task_overwrites_fields_witness :
  exists u : Task,
    update_task 1 (mkTask None "Buy food" None HIGH None DONE ["home"]
                          (Some "2025-01-01T00:00:00"))
                (mkTaskManager [groceries] 2)
    = (Some u, mkTaskManager [u] 2)
    /\ id u = Some 1%Z
    /\ title u = "Buy food" /\ description u = None
    /\ priority u = HIGH /\ due_date u = None
    /\ status u = DONE /\ tags u = ["home"]
    /\ created_at u = Some "2025-01-01T00:00:00".
Proof.
  apply (update_task_overwrites_fields (mkTaskManager [groceries] 2) 1
           (mkTask None "Buy food" None HIGH None DONE ["home"]
                   (Some "2025-01-01T00:00:00"))
           [] groceries []); try reflexivity.
  intros x [].
Defined.
